(** * EmotionSense-AI: the BiLSTM ONNX text-emotion script

    A shallow embedding of [backend/src/text-service/bilstm_onnx_inference.py]:
    the tokenizer ([TextTokenizer]), the prediction formatter
    ([predict_emotion]) and the command-line entry point ([main]), followed by
    the properties the design specification states about them.

    Conventions.
    - A Python [str] is the list of its Unicode code points ([pystr]).
    - A Python [int] is a [Z]; a [len] is a [nat].
    - A Python [float] (and a NumPy [float32]) is an IEEE 754 value,
      [spec_float] of the Standard Library, so that NaN is present.
    - A [dict] is a [gmap]; an exception is a value of [exn], and code that
      can raise returns [result]. *)

From Stdlib Require Import ZArith NArith Ascii String DecimalString DecimalNat.
From Stdlib Require Import Floats.SpecFloat.
From stdpp Require Import base option list gmap.

Local Open Scope Z_scope.

(** ** Python strings *)

Definition pystr : Type := list N.

(** A string literal of the source (all of them are ASCII). *)
Definition py (s : string) : pystr := N_of_ascii <$> list_ascii_of_string s.

(** [str(n)] of a non-negative integer, as an f-string renders a [len]. *)
Definition py_int (n : nat) : pystr := py (NilEmpty.string_of_uint (Nat.to_uint n)).

(** [Py_UNICODE_ISSPACE]: the code points that [str.split()], [str.strip()]
    and the pattern [\s] of a [str] regular expression treat as whitespace. *)
Definition is_space (c : N) : bool :=
  ((9 <=? c) && (c <=? 13) || (28 <=? c) && (c <=? 32)
   || (c =? 133) || (c =? 160) || (c =? 5760)
   || (8192 <=? c) && (c <=? 8202)
   || (c =? 8232) || (c =? 8233) || (c =? 8239) || (c =? 8287)
   || (c =? 12288))%N.

(** The character class [a-z]. *)
Definition is_az (c : N) : bool := ((97 <=? c) && (c <=? 122))%N.

(** The characters the pattern [[^a-z\s]] does NOT match. *)
Definition is_kept (c : N) : bool := is_az c || is_space c.

(** [re.sub(r'[^a-z\s]', '', text)]: every matching code point is deleted. *)
Definition re_sub_strip (text : pystr) : pystr := List.filter is_kept text.

(** A finished word is recorded only when it is not empty. *)
Definition push_word (w : pystr) (ws : list pystr) : list pystr :=
  match w with
  | [] => ws
  | _ :: _ => w :: ws
  end.

(** One left-to-right scan of [str.split()]: the pair is the word that is
    still open at the head of the string and the words finished after it. *)
Fixpoint split_scan (s : pystr) : pystr * list pystr :=
  match s with
  | [] => ([], [])
  | c :: s' =>
      let '(w, ws) := split_scan s' in
      if is_space c then ([], push_word w ws) else (c :: w, ws)
  end.

(** [s.split()]: the maximal runs of non-whitespace characters. *)
Definition str_split (s : pystr) : list pystr :=
  let '(w, ws) := split_scan s in push_word w ws.

(** [sep.join(words)]. *)
Fixpoint str_join (sep : pystr) (words : list pystr) : pystr :=
  match words with
  | [] => []
  | [w] => w
  | w :: ws => w ++ sep ++ str_join sep ws
  end.

(** [s.strip()]: whitespace removed at both ends. *)
Fixpoint str_lstrip (s : pystr) : pystr :=
  match s with
  | [] => []
  | c :: s' => if is_space c then str_lstrip s' else s
  end.

Definition str_strip (s : pystr) : pystr := reverse (str_lstrip (reverse (str_lstrip s))).

(** [s.split(sep)] for a one-character separator: the fields between the
    separators, empty ones included; the pair is (first field, the others). *)
Fixpoint split_fields (sep : N) (s : pystr) : pystr * list pystr :=
  match s with
  | [] => ([], [])
  | c :: s' =>
      let '(w, ws) := split_fields sep s' in
      if (c =? sep)%N then ([], w :: ws) else (c :: w, ws)
  end.

Definition str_split_on (sep : N) (s : pystr) : list pystr :=
  let '(w, ws) := split_fields sep s in w :: ws.

(** ** Exceptions *)

(** [SystemExit] is not an [Exception]: [except Exception] lets it through. *)
Inductive exn : Type :=
  | Exception (msg : pystr)
  | SystemExit (code : Z).

Definition result (A : Type) : Type := exn + A.

Definition Ok {A} (a : A) : result A := inr a.
Definition Raise {A} (e : exn) : result A := inl e.

Definition rbind {A B} (m : result A) (k : A → result B) : result B :=
  match m with
  | inl e => inl e
  | inr a => k a
  end.

Notation "'let?' x ':=' m 'in' k" := (rbind m (λ x, k))
  (at level 10, x name, m at level 100, k at level 200).

(** ** Lists and dictionaries of Python *)

(** [l[:n]]: a negative bound counts from the end. *)
Definition slice_to {A} (l : list A) (n : Z) : list A :=
  if 0 <=? n then take (Z.to_nat n) l
  else take (Z.to_nat (Z.of_nat (length l) + n)) l.

(** [[x] * n]: empty when [n] is not positive. *)
Definition list_times {A} (x : A) (n : Z) : list A := replicate (Z.to_nat n) x.

(** [d[k]] raises [KeyError] on a missing key. *)
Definition dict_getitem {V} (d : gmap pystr V) (k : pystr) : result V :=
  match d !! k with
  | Some v => Ok v
  | None => Raise (Exception (py "'" ++ k ++ py "'"))
  end.

(** [d.get(k, default)]. *)
Definition dict_get {V} (d : gmap pystr V) (k : pystr) (default : V) : V :=
  match d !! k with
  | Some v => v
  | None => default
  end.

(** [enumerate(l, start)]. *)
Fixpoint enumerate_from {A} (start : nat) (l : list A) : list (nat * A) :=
  match l with
  | [] => []
  | x :: l' => (start, x) :: enumerate_from (S start) l'
  end.

(** [enumerate(l)]. *)
Definition enumerate {A} (l : list A) : list (nat * A) := enumerate_from 0 l.

(** ** TextTokenizer *)

Record TextTokenizer : Type := {
  max_length : Z;
  vocab_size : Z;
  word_index : gmap pystr Z
}.

Definition PAD : pystr := py "<PAD>".
Definition UNK : pystr := py "<UNK>".

Definition common_words : list pystr := py <$> [
  "<PAD>"; "<UNK>";
  "i"; "you"; "he"; "she"; "it"; "we"; "they";
  "am"; "is"; "are"; "was"; "were"; "be"; "been"; "being";
  "have"; "has"; "had"; "do"; "does"; "did";
  "will"; "would"; "could"; "should"; "may"; "might"; "must";
  "can"; "cannot"; "cant";
  "the"; "a"; "an"; "and"; "or"; "but"; "if"; "then";
  "not"; "no"; "yes";
  "happy"; "sad"; "angry"; "fear"; "scared"; "afraid";
  "joy"; "joyful"; "excited"; "excited";
  "upset"; "frustrated"; "annoyed"; "mad";
  "love"; "hate"; "like"; "dislike";
  "good"; "bad"; "great"; "terrible"; "awful";
  "feel"; "feeling"; "felt";
  "very"; "really"; "so"; "too"; "much";
  "sorry"; "please"; "thank"; "thanks";
  "help"; "need"; "want"; "wish";
  "think"; "thought"; "know"; "believe";
  "see"; "look"; "hear"; "listen";
  "go"; "come"; "get"; "make"; "take";
  "day"; "time"; "way"; "people"; "thing";
  "work"; "life"; "world"; "home"; "friend";
  "tell"; "say"; "said"; "ask"; "asked";
  "just"; "now"; "today"; "never"; "always";
  "about"; "after"; "before"; "because"; "when"; "where";
  "what"; "why"; "how"; "who"; "which"
]%string.

(** [{word: idx + 1 for idx, word in enumerate(common_words)}]: the entries
    are written in list order, a later one replacing an earlier one. *)
Definition index_words (words : list pystr) : gmap pystr Z :=
  foldl (λ d iw, <[iw.2 := Z.of_nat iw.1 + 1]> d) ∅ (enumerate words).

Definition _build_basic_vocab : gmap pystr Z :=
  let word_index := index_words common_words in
  let word_index := <[PAD := 0]> word_index in
  let word_index := <[UNK := 1]> word_index in
  word_index.

(** [TextTokenizer.__init__(max_length=80, vocab_size=10000)]. *)
Definition TextTokenizer_init (max_length vocab_size : Z) : TextTokenizer :=
  {| max_length := max_length;
     vocab_size := vocab_size;
     word_index := _build_basic_vocab |}.

Definition in_int32 (z : Z) : bool := (-2147483648 <=? z) && (z <=? 2147483647).

(** [np.array(rows, dtype=np.int32)]: a Python integer that does not fit
    raises [OverflowError]. *)
Definition np_array_int32 (rows : list (list Z)) : result (list (list Z)) :=
  if forallb (forallb in_int32) rows then Ok rows
  else Raise (Exception (py "Python integer out of bounds for int32")).

(** [np.count_nonzero(a)] over every entry of a two-dimensional array. *)
Definition np_count_nonzero (a : list (list Z)) : Z :=
  Z.of_nat (length (List.filter (λ z, negb (z =? 0)) (concat a))).

Section Script.

(** [str.lower()]: the Unicode lowercase mapping of the interpreter, a table
    that is not part of this repository. *)
Variable str_lower : pystr → pystr.

(** The words that [preprocess_text] joins: those of the lowercased text
    once the pattern has been deleted from it. *)
Definition kept_words (text : pystr) : list pystr :=
  str_split (re_sub_strip (str_lower text)).

Definition preprocess_text (text : pystr) : pystr :=
  let text := str_lower text in
  let text := re_sub_strip text in
  let text := str_join (py " ") (str_split text) in
  text.

(** The [for word in ...] loop of [tokenize]; [self.word_index['<UNK>']] is
    evaluated at every iteration, before the call of [get]. *)
Fixpoint tokenize_loop (self : TextTokenizer) (words : list pystr)
    (sequence : list Z) : result (list Z) :=
  match words with
  | [] => Ok sequence
  | word :: words' =>
      let? unk := dict_getitem (word_index self) UNK in
      let idx := dict_get (word_index self) word unk in
      tokenize_loop self words' (sequence ++ [idx])
  end.

(** The padding step of [tokenize]. *)
Definition pad_sequence (self : TextTokenizer) (sequence : list Z) : list Z :=
  if Z.of_nat (length sequence) <? max_length self
  then sequence ++ list_times 0 (max_length self - Z.of_nat (length sequence))
  else sequence.

(** [TextTokenizer.tokenize]: an array of shape (1, max_length). *)
Definition tokenize (self : TextTokenizer) (text : pystr) : result (list (list Z)) :=
  let text := preprocess_text text in
  let words := str_split text in
  let? sequence := tokenize_loop self (slice_to words (max_length self)) [] in
  let sequence := pad_sequence self sequence in
  np_array_int32 [sequence].


(** ** predict_emotion *)

(** The steps [session.get_inputs()[0].name], [session.run(...)] and
    [outputs[0][0]] of the ONNX runtime: from the input array to the vector
    of class scores, or the exception the runtime raises. *)
Definition InferenceSession : Type := list (list Z) → result (list spec_float).

(** The fields of the dictionary returned on success. *)
Record Prediction : Type := {
  emotion : pystr;
  confidence : spec_float;
  scores : gmap pystr spec_float;
  model : pystr;
  text_length : nat;
  tokens_used : Z
}.

(** A result dictionary: ["success": True] with its fields, or
    ["success": False] with ["error"]. *)
Inductive PredictionResult : Type :=
  | Success (r : Prediction)
  | Failure (error : pystr).

Definition success (r : PredictionResult) : bool :=
  match r with
  | Success _ => true
  | Failure _ => false
  end.

(** [npy_isnan]. *)
Definition is_nan (x : spec_float) : bool :=
  match x with
  | S754_nan => true
  | _ => false
  end.

(** [x <= mp] on floats: false when either side is NaN. *)
Definition float_le (x mp : spec_float) : bool := SFleb x mp.

(** The loop of NumPy's [argmax] on floats, from the second entry on: [mp]
    is the running maximum, [max_ind] its index, [i] the index of the head
    of [ip]. The test is negated so that a NaN replaces the maximum and
    ends the scan. *)
Fixpoint argmax_loop (mp : spec_float) (max_ind i : nat) (ip : list spec_float) : nat :=
  match ip with
  | [] => max_ind
  | x :: ip' =>
      if negb (float_le x mp)
      then (if is_nan x then i else argmax_loop x i (S i) ip')
      else argmax_loop mp max_ind (S i) ip'
  end.

(** [np.argmax(a)] of a one-dimensional float array; [ValueError] when it
    is empty. *)
Definition np_argmax (a : list spec_float) : result nat :=
  match a with
  | [] => Raise (Exception (py "attempt to get argmax of an empty sequence"))
  | mp :: ip => if is_nan mp then Ok 0%nat else Ok (argmax_loop mp 0 1 ip)
  end.

(** [l[i]] for a non-negative index; [IndexError] out of range. *)
Definition list_getitem {A} (l : list A) (i : nat) : result A :=
  match l !! i with
  | Some x => Ok x
  | None => Raise (Exception (py "index out of range"))
  end.

(** The loop filling the [scores] dictionary. *)
Fixpoint scores_loop (predictions : list spec_float) (items : list (nat * pystr))
    (scores : gmap pystr spec_float) : result (gmap pystr spec_float) :=
  match items with
  | [] => Ok scores
  | (idx, label) :: items' =>
      let? p := list_getitem predictions idx in
      scores_loop predictions items' (<[label := p]> scores)
  end.

Definition mismatch_message (n_predictions n_labels : nat) : pystr :=
  py "Model output size (" ++ py_int n_predictions
  ++ py ") doesn't match emotion labels count (" ++ py_int n_labels
  ++ py "). Model expects " ++ py_int n_predictions ++ py " emotions.".

(** The body of [predict_emotion] from the validation of [predictions] to
    the returned dictionary. *)
Definition format_predictions (predictions : list spec_float)
    (emotion_labels : list pystr) (text : pystr)
    (input_sequence : list (list Z)) : result PredictionResult :=
  if negb (length predictions =? length emotion_labels)%nat
  then Ok (Failure (mismatch_message (length predictions) (length emotion_labels)))
  else
    let? max_idx := np_argmax predictions in
    let? max_confidence := list_getitem predictions max_idx in
    let? scores := scores_loop predictions (enumerate emotion_labels) ∅ in
    let? emotion := list_getitem emotion_labels max_idx in
    Ok (Success {| emotion := emotion;
                   confidence := max_confidence;
                   scores := scores;
                   model := py "bilstm_onnx";
                   text_length := length text;
                   tokens_used := np_count_nonzero input_sequence |}).

(** [try: body except Exception as e: handler(str(e))]. *)
Definition try_except {A} (body : result A) (handler : pystr → result A) : result A :=
  match body with
  | inl (Exception msg) => handler msg
  | _ => body
  end.

Definition prediction_failed (msg : pystr) : result PredictionResult :=
  Ok (Failure (py "Prediction failed: " ++ msg)).

(** The result formatter: [format_predictions] under the [try] of
    [predict_emotion]. *)
Definition format_result (predictions : list spec_float) (emotion_labels : list pystr)
    (text : pystr) (input_sequence : list (list Z)) : result PredictionResult :=
  try_except (format_predictions predictions emotion_labels text input_sequence)
    prediction_failed.

Definition predict_emotion (session : InferenceSession) (text : pystr)
    (emotion_labels : list pystr) (tokenizer : TextTokenizer) : result PredictionResult :=
  try_except
    (let? input_sequence := tokenize tokenizer text in
     let? predictions := session input_sequence in
     format_predictions predictions emotion_labels text input_sequence)
    prediction_failed.

(** ** The process: standard output and exit status *)

(** What the script finds when it starts: whether [import onnxruntime]
    succeeds, [sys.argv], and what [ort.InferenceSession(path, ...)] does. *)
Record Process : Type := {
  ort_installed : bool;
  argv : list pystr;
  ort_InferenceSession : pystr → result InferenceSession
}.

(** A computation that prints JSON objects and may raise: the state is the
    sequence of objects printed so far. *)
Definition IO (A : Type) : Type := list PredictionResult → result A * list PredictionResult.

Definition io_ret {A} (a : A) : IO A := λ out, (Ok a, out).

Definition io_bind {A B} (m : IO A) (k : A → IO B) : IO B :=
  λ out, match m out with
         | (inl e, out') => (inl e, out')
         | (inr a, out') => k a out'
         end.

Definition io_lift {A} (m : result A) : IO A := λ out, (m, out).

(** [print(json.dumps(r))]. *)
Definition print_json (r : PredictionResult) : IO unit := λ out, (Ok tt, out ++ [r]).

(** [sys.exit(code)]. *)
Definition sys_exit {A} (code : Z) : IO A := io_lift (Raise (SystemExit code)).

Definition io_try_except {A} (body : IO A) (handler : pystr → IO A) : IO A :=
  λ out, match body out with
         | (inl (Exception msg), out') => handler msg out'
         | r => r
         end.

Notation "'do' x '<-' m ';' k" := (io_bind m (λ x, k))
  (at level 10, x name, m at level 100, k at level 200).
Notation "m ';;' k" := (io_bind m (λ _, k))
  (at level 100, k at level 200, right associativity).

Definition load_onnx_model (p : Process) (model_path : pystr) : result InferenceSession :=
  try_except (ort_InferenceSession p model_path)
    (λ msg, Raise (Exception (py "Failed to load ONNX model: " ++ msg))).

Definition usage : pystr :=
  py "Usage: python bilstm_onnx_inference.py <model_path> <text> <emotion_labels>".

Definition comma : N := 44%N.

Definition main (p : Process) : IO unit :=
  io_try_except
    ((if (length (argv p) <? 4)%nat
      then print_json (Failure usage) ;; sys_exit 1
      else io_ret tt) ;;
     do model_path <- io_lift (list_getitem (argv p) 1);
     do text <- io_lift (list_getitem (argv p) 2);
     do labels_arg <- io_lift (list_getitem (argv p) 3);
     let emotion_labels := str_split_on comma labels_arg in
     (if bool_decide (text = []) || (length (str_strip text) =? 0)%nat
      then print_json (Failure (py "Empty text provided")) ;; sys_exit 1
      else io_ret tt) ;;
     let tokenizer := TextTokenizer_init 80 10000 in
     do session <- io_lift (load_onnx_model p model_path);
     do result <- io_lift (predict_emotion session text emotion_labels tokenizer);
     print_json result)
    (λ msg, print_json (Failure msg) ;; sys_exit 1).

(** The module body: the guarded import, then [main()]. *)
Definition script (p : Process) : IO unit :=
  if ort_installed p then main p
  else print_json (Failure (py "onnxruntime not installed. Install with: pip install onnxruntime")) ;;
       sys_exit 1.

(** What the operating system sees of one run: the objects printed and the
    exit status (0 at a normal end, the code of [SystemExit], 1 for an
    exception that nothing caught). *)
Definition run (p : Process) : list PredictionResult * Z :=
  match script p [] with
  | (inr _, out) => (out, 0)
  | (inl (SystemExit code), out) => (out, code)
  | (inl (Exception _), out) => (out, 1)
  end.

End Script.

(** ASCII-only lowercasing, an instance of [str.lower] on ASCII text. *)
Definition ascii_lower_char (c : N) : N :=
  if ((65 <=? c) && (c <=? 90))%N then (c + 32)%N else c.

Definition ascii_lower (s : pystr) : pystr := ascii_lower_char <$> s.

(** The index [tokenize] gives a word: its entry in the vocabulary of
    [_build_basic_vocab], or the value stored under ['<UNK>']. *)
Definition lookup_word (word : pystr) : Z := dict_get _build_basic_vocab word 1.

(** A word as [str.split()] produces them: not empty, free of whitespace. *)
Definition is_word (w : pystr) : Prop := w ≠ [] ∧ Forall (λ c, is_space c = false) w.

(** The characters of a normalized text: [a-z] and the single space. *)
Definition is_plain (c : N) : Prop := is_az c = true ∨ c = 32%N.

(** The place of a float in the order of [<=]: the sign class first (from
    minus infinity to plus infinity, the two zeros together), then exponent
    and mantissa, both reversed for a negative number. *)
Definition float_key (x : spec_float) : Z * Z * Z :=
  match x with
  | S754_infinity true => (-2, 0, 0)
  | S754_finite true m e => (-1, - e, - Z.pos m)
  | S754_zero _ => (0, 0, 0)
  | S754_nan => (0, 0, 0)
  | S754_finite false m e => (1, e, Z.pos m)
  | S754_infinity false => (2, 0, 0)
  end.

Definition key_lt (k1 k2 : Z * Z * Z) : Prop :=
  k1.1.1 < k2.1.1
  ∨ (k1.1.1 = k2.1.1 ∧ (k1.1.2 < k2.1.2 ∨ (k1.1.2 = k2.1.2 ∧ k1.2 < k2.2))).

Definition key_le (k1 k2 : Z * Z * Z) : Prop :=
  k1.1.1 < k2.1.1
  ∨ (k1.1.1 = k2.1.1 ∧ (k1.1.2 < k2.1.2 ∨ (k1.1.2 = k2.1.2 ∧ k1.2 ≤ k2.2))).

(** The entry insertions of [scores_loop], as one fold over the pairs. *)
Definition insert_scores (scores : gmap pystr spec_float)
    (pairs : list (pystr * spec_float)) : gmap pystr spec_float :=
  foldl (λ d lp, <[lp.1 := lp.2]> d) scores pairs.

(** ** Sample values *)

(** Positive [float32] numbers, mantissa (24 bits) and exponent:
    0.2, 0.3 and 0.5. *)
Definition f32 (m : positive) (e : Z) : spec_float := S754_finite false m e.
Definition p020 : spec_float := f32 13421773 (-26).
Definition p030 : spec_float := f32 10066330 (-25).
Definition p050 : spec_float := f32 8388608 (-24).

(** A session whose model returns the same scores for every input, and one
    whose run raises. *)
Definition constant_session (class_scores : list spec_float) : InferenceSession :=
  λ _, Ok class_scores.

Definition raising_session (msg : pystr) : InferenceSession :=
  λ _, Raise (Exception msg).

(** A run of the script with the runtime installed and three arguments. *)
Definition sample_process (text labels : string) (session : InferenceSession) : Process :=
  {| ort_installed := true;
     argv := py <$> ["bilstm_onnx_inference.py"; "emotion_bilstm_final.onnx";
                     text; labels]%string;
     ort_InferenceSession := λ _, Ok session |}.

(** A computation that cannot leave through [SystemExit]: whatever it
    raises, [except Exception] catches. *)
Definition never_exits {A} (m : result A) : Prop := ∀ code : Z, m ≠ Raise (SystemExit code).

(** * The voice-service scripts

    [emotion_inference.py] and [huggingface_emotion.py]. What they write to
    standard error is left out; standard output and the exit status are
    modelled as for the text script. *)

(** [sys.argv[i]]: a list raises [IndexError] out of range. *)
Definition argv_getitem (argv : list pystr) (i : nat) : result pystr :=
  match argv !! i with
  | Some x => Ok x
  | None => Raise (Exception (py "list index out of range"))
  end.

Module EmotionInference.

Definition predict_emotion (model_path audio_path : pystr) (emotion_labels : list pystr)
    : PredictionResult :=
  Failure (py "This BiLSTM model (emotion_bilstm_final.h5) is a TEXT emotion model that expects tokenized text input, not audio. The model uses an Embedding layer which processes integer sequences (word tokens), not audio features. Please use the HuggingFace audio emotion model instead for voice emotion detection.").

Definition predict_emotion_old_attempt (model_path audio_path : pystr)
    (emotion_labels : list pystr) : PredictionResult :=
  Failure (py "Model architecture mismatch: This is a text emotion model with Embedding layer, not an audio model").

(** The [if __name__ == "__main__"] block. *)
Definition main_block (argv : list pystr) : IO unit :=
  io_try_except
    (io_bind (io_lift (argv_getitem argv 1)) (λ model_path,
     io_bind (io_lift (argv_getitem argv 2)) (λ audio_path,
     io_bind (io_lift (argv_getitem argv 3)) (λ labels_arg,
     let emotion_labels := str_split_on comma labels_arg in
     let result := predict_emotion model_path audio_path emotion_labels in
     print_json result))))
    (λ msg, print_json (Failure msg)).

(** One run: when [import tensorflow] fails nothing catches the error, the
    interpreter prints a traceback to standard error and ends with status 1;
    otherwise the block runs and the script ends normally. *)
Definition run (tensorflow_installed : bool) (argv : list pystr)
    : list PredictionResult * Z :=
  if tensorflow_installed then
    match main_block argv [] with
    | (inr _, out) => (out, 0)
    | (inl (SystemExit code), out) => (out, code)
    | (inl (Exception _), out) => (out, 1)
    end
  else ([], 1).

End EmotionInference.

Module HuggingfaceEmotion.

(** The keys of a label dictionary: strings, as in [DEFAULT_LABELS], or
    integers. *)
Definition DEFAULT_LABELS : gmap (pystr + Z) pystr :=
  list_to_map [
    (inl (py "0"), py "angry");
    (inl (py "1"), py "calm");
    (inl (py "2"), py "disgust");
    (inl (py "3"), py "fear");
    (inl (py "4"), py "happy");
    (inl (py "5"), py "neutral");
    (inl (py "6"), py "sad");
    (inl (py "7"), py "surprise")
  ].

(** What the script reads of a model configuration: [model_type], and
    [id2label] when the attribute exists. *)
Record Config : Type := {
  model_type : pystr;
  id2label : option (gmap (pystr + Z) pystr)
}.

(** The configuration's own labels when it has some, the default ones when
    the attribute is missing or the dictionary is empty. *)
Definition get_label_mapping (model_name : pystr) (config : Config)
    : gmap (pystr + Z) pystr :=
  match id2label config with
  | Some labels => if bool_decide (labels = ∅) then DEFAULT_LABELS else labels
  | None => DEFAULT_LABELS
  end.

(** The fields of the dictionary returned on success. *)
Record Classification : Type := {
  emotion : pystr;
  confidence : spec_float;
  scores : gmap pystr spec_float;
  model : pystr
}.

Inductive ClassifyResult : Type :=
  | Success (r : Classification)
  | Failure (error : pystr).

Definition success (r : ClassifyResult) : bool :=
  match r with
  | Success _ => true
  | Failure _ => false
  end.

(** A loaded model with its feature extractor: from the path of an audio
    file to the list [probs] (loading and resampling, the forward pass, the
    softmax, [squeeze], [unsqueeze] and [tolist]), or the exception raised
    on the way. *)
Definition AudioModel : Type := pystr → result (list spec_float).

(** The libraries around the script: [AutoConfig.from_pretrained], the two
    [from_pretrained] calls that load the model and its processor, and two
    texts of the interpreter that the script does not fix: the message of
    [max()] on an empty list and the [repr] of a float. *)
Record Runtime : Type := {
  AutoConfig_from_pretrained : pystr → result Config;
  Wav2Vec2_from_pretrained : pystr → result AudioModel;
  max_empty_message : pystr;
  float_repr : spec_float → pystr
}.

Definition audio_model_types : list pystr := [py "wav2vec2"; py "wavlm"; py "hubert"].

(** [id2label.get(str(i), f"emotion_{i}")]. *)
Definition emotion_name (id2label : gmap (pystr + Z) pystr) (i : nat) : pystr :=
  match id2label !! inl (py_int i) with
  | Some label => label
  | None => py "emotion_" ++ py_int i
  end.

(** The loop that fills [scores], over [range(len(probs))]. *)
Fixpoint scores_loop (id2label : gmap (pystr + Z) pystr) (probs : list spec_float)
    (indices : list nat) (scores : gmap pystr spec_float)
    : result (gmap pystr spec_float) :=
  match indices with
  | [] => Ok scores
  | i :: indices' =>
      let emotion := emotion_name id2label i in
      let? p := list_getitem probs i in
      scores_loop id2label probs indices' (<[emotion := p]> scores)
  end.

(** [x > y] on floats: false when either side is NaN. *)
Definition float_gt (x y : spec_float) : bool := SFltb y x.

(** The loop of the built-in [max]: the item kept is replaced only by a
    strictly greater one. An item is a float object; its position in the
    list stands for its identity. *)
Fixpoint max_loop (maxpos : nat) (maxval : spec_float) (i : nat)
    (items : list spec_float) : nat * spec_float :=
  match items with
  | [] => (maxpos, maxval)
  | x :: items' =>
      if float_gt x maxval then max_loop i x (S i) items'
      else max_loop maxpos maxval (S i) items'
  end.

Definition py_max (rt : Runtime) (l : list spec_float) : result (nat * spec_float) :=
  match l with
  | [] => Raise (Exception (max_empty_message rt))
  | x :: l' => Ok (max_loop 0 x 1 l')
  end.

(** [l.index(target)]: the first position whose item is the target object
    or is equal to it. *)
Fixpoint index_loop (rt : Runtime) (target : nat * spec_float) (i : nat)
    (l : list spec_float) : result nat :=
  match l with
  | [] => Raise (Exception (float_repr rt target.2 ++ py " is not in list"))
  | x :: l' =>
      if (i =? target.1)%nat || SFeqb x target.2 then Ok i
      else index_loop rt target (S i) l'
  end.

Definition list_index (rt : Runtime) (l : list spec_float) (target : nat * spec_float)
    : result nat :=
  index_loop rt target 0 l.

Definition not_audio_message (model_name model_type : pystr) : pystr :=
  py "Model '" ++ model_name ++ py "' is a '" ++ model_type
  ++ py "' model, not an audio model! Please use a Wav2Vec2/WavLM/Hubert model for audio emotion detection.".

(** The [try] block of [classify_audio]. *)
Definition classify_body (rt : Runtime) (model_name audio_path : pystr)
    : result ClassifyResult :=
  let? config := AutoConfig_from_pretrained rt model_name in
  if negb (bool_decide (model_type config ∈ audio_model_types))
  then Ok (Failure (not_audio_message model_name (model_type config)))
  else
    let? audio_model := Wav2Vec2_from_pretrained rt model_name in
    let id2label := get_label_mapping model_name config in
    let? probs := audio_model audio_path in
    let? scores := scores_loop id2label probs (seq 0 (length probs)) ∅ in
    let? max_prob := py_max rt probs in
    let? dominant_idx := list_index rt probs max_prob in
    let dominant_emotion := emotion_name id2label dominant_idx in
    Ok (Success {| emotion := dominant_emotion;
                   confidence := max_prob.2;
                   scores := scores;
                   model := model_name |}).

Definition classify_audio (rt : Runtime) (model_name audio_path : pystr)
    : result ClassifyResult :=
  try_except (classify_body rt model_name audio_path) (λ msg, Ok (Failure msg)).

(** The [if __name__ == "__main__"] block: what it prints, and how it ends. *)
Definition main_block (rt : Runtime) (argv : list pystr)
    : result unit * list ClassifyResult :=
  match (let? model_name := argv_getitem argv 1 in
         let? audio_path := argv_getitem argv 2 in
         classify_audio rt model_name audio_path) with
  | inr result => (Ok tt, [result])
  | inl (Exception msg) => (Ok tt, [Failure msg])
  | inl (SystemExit code) => (Raise (SystemExit code), [])
  end.

Definition missing_dependencies (e : pystr) : pystr :=
  py "Missing dependencies: " ++ e
  ++ py ". Install with: pip install transformers torch librosa soundfile".

(** One run; [import_error] is the message of the [ImportError] when one of
    the guarded imports fails. *)
Definition run (import_error : option pystr) (rt : Runtime) (argv : list pystr)
    : list ClassifyResult * Z :=
  match import_error with
  | Some e => ([Failure (missing_dependencies e)], 1)
  | None =>
      match main_block rt argv with
      | (inr _, out) => (out, 0)
      | (inl (SystemExit code), out) => (out, code)
      | (inl (Exception _), out) => (out, 1)
      end
  end.

(** A runtime for the examples: one configuration, and a model that returns
    the same scores for every file. *)
Definition sample_runtime (config : Config) (probs : list spec_float) : Runtime :=
  {| AutoConfig_from_pretrained := λ _, Ok config;
     Wav2Vec2_from_pretrained := λ _, Ok (λ _, Ok probs);
     max_empty_message := py "max() arg is an empty sequence";
     float_repr := λ _, py "nan" |}.

End HuggingfaceEmotion.

(** * Properties *)

(** ** The vocabulary *)

Lemma vocab_unk : _build_basic_vocab !! UNK = Some 1.
Proof. vm_compute. reflexivity. Qed.

Lemma vocab_entries :
  map_Forall (λ k v, (v = 0 → k = PAD) ∧ 0 ≤ v ≤ 127) _build_basic_vocab.
Proof. apply (bool_decide_unpack _). vm_compute. reflexivity. Qed.

Lemma lookup_word_range w : 0 ≤ lookup_word w ≤ 127.
Proof.
  unfold lookup_word, dict_get.
  destruct (_build_basic_vocab !! w) as [v|] eqn:E; [|lia].
  apply vocab_entries in E. tauto.
Qed.

Lemma lookup_word_zero w : lookup_word w = 0 → w = PAD.
Proof.
  unfold lookup_word, dict_get.
  destruct (_build_basic_vocab !! w) as [v|] eqn:E; [|lia].
  apply vocab_entries in E. tauto.
Qed.

Lemma lookup_word_absent w : _build_basic_vocab !! w = None → lookup_word w = 1.
Proof. unfold lookup_word, dict_get. intros ->. reflexivity. Qed.

(** From here on the vocabulary is used through the four lemmas above. *)
#[local] Opaque _build_basic_vocab.

(** ** Splitting and joining *)

Lemma push_word_Forall (P : pystr → Prop) w ws :
  (w ≠ [] → P w) → Forall P ws → Forall P (push_word w ws).
Proof. destruct w; simpl; intros Hw Hws; [done|]. constructor; [by apply Hw|done]. Qed.

(** Every character of every word comes from the scanned string. *)
Lemma split_scan_chars (P : N → Prop) s :
  Forall P s → Forall P (split_scan s).1 ∧ Forall (Forall P) (split_scan s).2.
Proof.
  induction 1 as [|c s Hc Hs [IHw IHws]]; simpl; [by split|].
  destruct (split_scan s) as [w ws]; simpl in *.
  destruct (is_space c); simpl; split; auto.
  by apply push_word_Forall.
Qed.

Lemma split_scan_words s :
  Forall (λ c, is_space c = false) (split_scan s).1 ∧ Forall is_word (split_scan s).2.
Proof.
  induction s as [|c s [IHw IHws]]; simpl; [by split|].
  destruct (split_scan s) as [w ws]; simpl in *.
  destruct (is_space c) eqn:Hc; simpl; split; auto.
  apply push_word_Forall; [|done]. intros Hne. by split.
Qed.

Lemma str_split_words s : Forall is_word (str_split s).
Proof.
  unfold str_split. pose proof (split_scan_words s) as [Hw Hws].
  destruct (split_scan s) as [w ws]; simpl in *.
  apply push_word_Forall; [|done]. intros Hne. by split.
Qed.

Lemma str_split_chars (P : N → Prop) s : Forall P s → Forall (Forall P) (str_split s).
Proof.
  intros Hs. unfold str_split. pose proof (split_scan_chars P s Hs) as [Hw Hws].
  destruct (split_scan s) as [w ws]; simpl in *.
  by apply push_word_Forall.
Qed.

(** Scanning a whitespace-free prefix only extends the open word. *)
Lemma split_scan_app_word w s :
  Forall (λ c, is_space c = false) w →
  split_scan (w ++ s) = (w ++ (split_scan s).1, (split_scan s).2).
Proof.
  induction 1 as [|c w Hc Hw IH]; simpl; [by destruct (split_scan s)|].
  rewrite IH, Hc. reflexivity.
Qed.

Lemma split_scan_join w ws :
  Forall is_word (w :: ws) → split_scan (str_join (py " ") (w :: ws)) = (w, ws).
Proof.
  revert w. induction ws as [|w' ws IH]; intros w Hall.
  - simpl. apply Forall_cons in Hall as [[_ Hw] _].
    rewrite <- (app_nil_r w) at 1. rewrite split_scan_app_word by done.
    simpl. by rewrite app_nil_r.
  - apply Forall_cons in Hall as [[_ Hw] Hrest].
    change (str_join (py " ") (w :: w' :: ws))
      with (w ++ 32%N :: str_join (py " ") (w' :: ws)).
    rewrite split_scan_app_word by done.
    change (split_scan (32%N :: str_join (py " ") (w' :: ws)))
      with (let '(w0, ws0) := split_scan (str_join (py " ") (w' :: ws)) in
            ([] : pystr, push_word w0 ws0)).
    rewrite (IH w' Hrest). simpl. rewrite app_nil_r.
    apply Forall_cons in Hrest as [[Hne _] _].
    destruct w'; [done|reflexivity].
Qed.

(** [split] undoes [' '.join] on a list of words. *)
Lemma str_split_join ws : Forall is_word ws → str_split (str_join (py " ") ws) = ws.
Proof.
  destruct ws as [|w ws]; [reflexivity|]. intros Hall.
  unfold str_split. rewrite (split_scan_join w ws Hall).
  apply Forall_cons in Hall as [[Hne _] _]. destruct w; [done|reflexivity].
Qed.

Lemma str_join_plain ws :
  Forall (Forall (λ c, is_az c = true)) ws → Forall is_plain (str_join (py " ") ws).
Proof.
  induction 1 as [|w ws Hw Hws IH]; [constructor|].
  assert (Forall is_plain w) as Hpw.
  { eapply Forall_impl; [exact Hw|]. intros c Hc. by left. }
  destruct ws as [|w' ws]; [exact Hpw|].
  change (str_join (py " ") (w :: w' :: ws))
    with (w ++ 32%N :: str_join (py " ") (w' :: ws)).
  apply Forall_app. split; [done|]. constructor; [by right|done].
Qed.

Lemma is_plain_kept c : is_plain c → is_kept c = true.
Proof.
  unfold is_kept. intros [Hc| ->]; [by rewrite Hc|]. reflexivity.
Qed.

Lemma re_sub_strip_kept s : Forall (λ c, is_kept c = true) (re_sub_strip s).
Proof.
  unfold re_sub_strip. induction s as [|c s IH]; simpl; [constructor|].
  destruct (is_kept c) eqn:Hc; [by constructor|done].
Qed.

Lemma re_sub_strip_id s : Forall (λ c, is_kept c = true) s → re_sub_strip s = s.
Proof.
  unfold re_sub_strip. induction 1 as [|c s Hc Hs IH]; [reflexivity|].
  simpl. by rewrite Hc, IH.
Qed.

Section TokenizerProperties.

Variable str_lower : pystr → pystr.

Lemma kept_words_are_words text : Forall is_word (kept_words str_lower text).
Proof. apply str_split_words. Qed.

Lemma kept_words_az text : Forall (Forall (λ c, is_az c = true)) (kept_words str_lower text).
Proof.
  pose proof (kept_words_are_words text) as Hw.
  pose proof (str_split_chars _ _ (re_sub_strip_kept (str_lower text))) as Hk.
  fold (kept_words str_lower text) in Hk.
  apply Forall_forall. intros w Hin.
  rewrite Forall_forall in Hw, Hk. destruct (Hw w Hin) as [_ Hns].
  specialize (Hk w Hin). apply Forall_forall. intros c Hc.
  rewrite Forall_forall in Hns, Hk.
  specialize (Hns c Hc). specialize (Hk c Hc).
  unfold is_kept in Hk. rewrite Hns, orb_false_r in Hk. exact Hk.
Qed.

(** Splitting the normalized text gives back the words it was joined from. *)
Lemma split_preprocess text :
  str_split (preprocess_text str_lower text) = kept_words str_lower text.
Proof. unfold preprocess_text. apply str_split_join, kept_words_are_words. Qed.

Lemma preprocess_plain text : Forall is_plain (preprocess_text str_lower text).
Proof. unfold preprocess_text. apply str_join_plain, kept_words_az. Qed.

(** ** tokenize *)

Lemma tokenize_loop_eq self u words sequence :
  word_index self !! UNK = Some u →
  tokenize_loop self words sequence
  = Ok (sequence ++ ((λ w, dict_get (word_index self) w u) <$> words)).
Proof.
  intros Hu. revert sequence.
  induction words as [|w words IH]; intros sequence; simpl.
  - by rewrite app_nil_r.
  - unfold dict_getitem. rewrite Hu. simpl. rewrite IH.
    by rewrite <- app_assoc.
Qed.

Lemma pad_sequence_int32 self sequence :
  forallb in_int32 sequence = true → forallb in_int32 (pad_sequence self sequence) = true.
Proof.
  intros Hs. unfold pad_sequence. case_match; [|done].
  rewrite forallb_app, Hs. simpl. unfold list_times.
  induction (Z.to_nat _) as [|n IH]; [reflexivity|exact IH].
Qed.

Lemma lookup_words_int32 words : forallb in_int32 (lookup_word <$> words) = true.
Proof.
  induction words as [|w words IH]; [reflexivity|].
  rewrite fmap_cons. cbn [forallb]. rewrite IH, andb_true_r.
  pose proof (lookup_word_range w). unfold in_int32. lia.
Qed.

(** [tokenize] returns, for every text and every [max_length]: one row, the
    indices of the first words, padded. Neither the lookup of ['<UNK>'] nor
    the conversion to [int32] can raise. *)
Lemma tokenize_eq ml vs text :
  tokenize str_lower (TextTokenizer_init ml vs) text
  = Ok [pad_sequence (TextTokenizer_init ml vs)
          (lookup_word <$> slice_to (kept_words str_lower text) ml)].
Proof.
  unfold tokenize. rewrite split_preprocess.
  rewrite (tokenize_loop_eq _ 1) by exact vocab_unk. simpl.
  unfold np_array_int32. simpl.
  fold lookup_word.
  rewrite pad_sequence_int32 by apply lookup_words_int32. reflexivity.
Qed.

Lemma pad_sequence_eq ml vs sequence :
  pad_sequence (TextTokenizer_init ml vs) sequence
  = sequence ++ replicate (Z.to_nat ml - length sequence) 0.
Proof.
  unfold pad_sequence, list_times. simpl.
  destruct (Z.ltb_spec (Z.of_nat (length sequence)) ml).
  - do 2 f_equal. lia.
  - replace (Z.to_nat ml - length sequence)%nat with 0%nat by lia.
    by rewrite app_nil_r.
Qed.

(** C2. For every text [t], [tokenize(t)] is an array of one row of exactly
    [max_length] integers: the indices of the words of the normalized text,
    cut after the first [max_length] of them when there are more, and
    followed by zeros up to [max_length] when there are fewer. *)
Theorem tokenize_length (ml vs : Z) (t : pystr) :
  0 ≤ ml →
  ∃ row : list Z,
    tokenize str_lower (TextTokenizer_init ml vs) t = Ok [row]
    ∧ Z.of_nat (length row) = ml
    ∧ let mapped := lookup_word <$> str_split (preprocess_text str_lower t) in
      row = take (Z.to_nat ml) mapped ++ replicate (Z.to_nat ml - length mapped) 0.
Proof.
  intros Hml. eexists. split; [apply tokenize_eq|].
  rewrite pad_sequence_eq, split_preprocess. unfold slice_to.
  rewrite (proj2 (Z.leb_le 0 ml) Hml).
  rewrite fmap_take.
  set (mapped := lookup_word <$> kept_words str_lower t).
  split.
  - rewrite length_app, length_replicate, length_take. lia.
  - simpl. f_equal. f_equal. rewrite length_take. lia.
Qed.

(** C5. A word of the normalized text that the vocabulary does not hold is
    given the reserved index 1 at its position in the row; when the
    normalized text is that single word and [max_length] is 80, the row is
    1 followed by 79 zeros. *)
Theorem tokenize_unknown_word (ml vs : Z) (t : pystr) (i : nat) (w : pystr) :
  0 ≤ ml →
  Z.of_nat i < ml →
  str_split (preprocess_text str_lower t) !! i = Some w →
  _build_basic_vocab !! w = None →
  ∃ row : list Z,
    tokenize str_lower (TextTokenizer_init ml vs) t = Ok [row]
    ∧ row !! i = Some 1
    ∧ (str_split (preprocess_text str_lower t) = [w] → ml = 80 →
       row = 1 :: replicate 79 0).
Proof.
  intros Hml Hi Hw Habs. eexists. split; [apply tokenize_eq|].
  rewrite pad_sequence_eq. rewrite split_preprocess in Hw |- *.
  unfold slice_to. rewrite (proj2 (Z.leb_le 0 ml) Hml).
  split.
  - rewrite lookup_app_l.
    + rewrite list_lookup_fmap, lookup_take_lt by lia.
      rewrite Hw. simpl. by rewrite lookup_word_absent.
    + rewrite length_fmap, length_take. apply lookup_lt_Some in Hw. lia.
  - intros -> ->. rewrite take_ge by (simpl; lia).
    rewrite fmap_cons, lookup_word_absent by done. reflexivity.
Qed.

(** C9. A text whose normalization is empty is tokenized to the row of
    [max_length] zeros, and [tokenize] raises for no text and no tokenizer
    built by the constructor. *)
Theorem tokenize_empty_normalized (ml vs : Z) (t : pystr) :
  0 ≤ ml →
  preprocess_text str_lower t = [] →
  tokenize str_lower (TextTokenizer_init ml vs) t = Ok [replicate (Z.to_nat ml) 0]
  ∧ ∀ (ml' vs' : Z) (t' : pystr),
      ∃ a, tokenize str_lower (TextTokenizer_init ml' vs') t' = Ok a.
Proof.
  intros Hml Hempty. split.
  - rewrite tokenize_eq, pad_sequence_eq, <- split_preprocess, Hempty.
    unfold slice_to. rewrite (proj2 (Z.leb_le 0 ml) Hml).
    change (str_split []) with (@nil pystr). rewrite take_nil. simpl.
    by rewrite Nat.sub_0_r.
  - intros ml' vs' t'. eexists. apply tokenize_eq.
Qed.

(** [str.lower] leaves a string of lowercase ASCII letters and spaces as
    it is. *)
Hypothesis str_lower_plain : ∀ s : pystr, Forall is_plain s → str_lower s = s.

(** C8. Normalization is idempotent: [preprocess_text] applied to its own
    output returns that output. *)
Theorem preprocess_text_idempotent (t : pystr) :
  preprocess_text str_lower (preprocess_text str_lower t) = preprocess_text str_lower t.
Proof.
  pose proof (preprocess_plain t) as Hplain.
  unfold preprocess_text at 1.
  rewrite (str_lower_plain _ Hplain).
  rewrite re_sub_strip_id.
  - rewrite split_preprocess. reflexivity.
  - eapply Forall_impl; [exact Hplain|]. apply is_plain_kept.
Qed.

End TokenizerProperties.

Lemma ascii_lower_plain (s : pystr) : Forall is_plain s → ascii_lower s = s.
Proof.
  unfold ascii_lower. induction 1 as [|c s Hc Hs IH]; [reflexivity|].
  rewrite fmap_cons, IH. f_equal.
  unfold ascii_lower_char, is_plain, is_az in *.
  destruct Hc as [Hc| ->]; [|reflexivity].
  apply andb_true_iff in Hc as [Hc _]. apply N.leb_le in Hc.
  destruct (N.leb_spec 65 c); [|reflexivity]. simpl.
  destruct (N.leb_spec c 90); [lia|reflexivity].
Qed.

Lemma tokenize_length_witness :
  ∃ row : list Z,
    tokenize ascii_lower (TextTokenizer_init 80 10000) (py "I am HAPPY!! xyzzy 42") = Ok [row]
    ∧ Z.of_nat (length row) = 80
    ∧ row = [3; 10; 45; 1] ++ replicate 76 0.
Proof.
  destruct (tokenize_length ascii_lower 80 10000 (py "I am HAPPY!! xyzzy 42"))
    as (row & Hrow & Hlen & Hshape); [lia|].
  exists row. split; [exact Hrow|]. split; [exact Hlen|].
  rewrite Hshape. vm_compute. reflexivity.
Defined.

Lemma tokenize_unknown_word_witness :
  ∃ row : list Z,
    tokenize ascii_lower (TextTokenizer_init 80 10000) (py "xyzzy") = Ok [row]
    ∧ row !! 0%nat = Some 1
    ∧ row = 1 :: replicate 79 0.
Proof.
  destruct (tokenize_unknown_word ascii_lower 80 10000 (py "xyzzy") 0 (py "xyzzy"))
    as (row & Hrow & Hfirst & Hall).
  - lia.
  - lia.
  - vm_compute. reflexivity.
  - vm_compute. reflexivity.
  - exists row. split; [exact Hrow|]. split; [exact Hfirst|].
    apply Hall; [vm_compute; reflexivity|reflexivity].
Defined.

Lemma tokenize_empty_normalized_witness :
  tokenize ascii_lower (TextTokenizer_init 80 10000) (py "1234 !? 56") = Ok [replicate 80 0].
Proof.
  apply (tokenize_empty_normalized ascii_lower 80 10000 (py "1234 !? 56")).
  - lia.
  - vm_compute. reflexivity.
Defined.

Lemma preprocess_text_idempotent_witness :
  preprocess_text ascii_lower (py "  I'm  SO happy, 2day!  ") = py "im so happy day"
  ∧ preprocess_text ascii_lower (preprocess_text ascii_lower (py "  I'm  SO happy, 2day!  "))
    = preprocess_text ascii_lower (py "  I'm  SO happy, 2day!  ").
Proof.
  split; [vm_compute; reflexivity|].
  apply (preprocess_text_idempotent ascii_lower ascii_lower_plain).
Defined.

(** ** The order of floats *)

Lemma SFltb_key x y :
  is_nan x = false → is_nan y = false →
  SFltb x y = true ↔ key_lt (float_key x) (float_key y).
Proof.
  unfold SFltb, SFcompare, key_lt.
  destruct x as [[]|[]| |[] m1 e1], y as [[]|[]| |[] m2 e2]; simpl;
    intros Hx Hy; try discriminate; try (split; [intros; lia|intros; (reflexivity || lia)]).
  - change (Pos.compare_cont Eq m1 m2) with (Z.pos m1 ?= Z.pos m2).
    destruct (Z.compare_spec e1 e2), (Z.compare_spec (Z.pos m1) (Z.pos m2));
      simpl; split; intros; (reflexivity || lia).
  - change (Pos.compare_cont Eq m1 m2) with (Z.pos m1 ?= Z.pos m2).
    destruct (Z.compare_spec e1 e2), (Z.compare_spec (Z.pos m1) (Z.pos m2));
      simpl; split; intros; (reflexivity || lia).
Qed.

Lemma float_le_key x y :
  is_nan x = false → is_nan y = false →
  float_le x y = true ↔ key_le (float_key x) (float_key y).
Proof.
  unfold float_le, SFleb, SFcompare, key_le.
  destruct x as [[]|[]| |[] m1 e1], y as [[]|[]| |[] m2 e2]; simpl;
    intros Hx Hy; try discriminate; try (split; [intros; lia|intros; (reflexivity || lia)]).
  - change (Pos.compare_cont Eq m1 m2) with (Z.pos m1 ?= Z.pos m2).
    destruct (Z.compare_spec e1 e2), (Z.compare_spec (Z.pos m1) (Z.pos m2));
      simpl; split; intros; (reflexivity || lia).
  - change (Pos.compare_cont Eq m1 m2) with (Z.pos m1 ?= Z.pos m2).
    destruct (Z.compare_spec e1 e2), (Z.compare_spec (Z.pos m1) (Z.pos m2));
      simpl; split; intros; (reflexivity || lia).
Qed.

Ltac key_order :=
  unfold key_lt, key_le in *;
  repeat match goal with
         | |- context [float_key ?x] =>
             let a := fresh "a" in let b := fresh "b" in let c := fresh "c" in
             destruct (float_key x) as [[a b] c]
         | H : context [float_key ?x] |- _ =>
             let a := fresh "a" in let b := fresh "b" in let c := fresh "c" in
             destruct (float_key x) as [[a b] c]
         end;
  simpl in *; lia.

Lemma float_le_refl x : is_nan x = false → float_le x x = true.
Proof. intros Hx. apply float_le_key; [done..|]. key_order. Qed.

Lemma float_not_le_lt x y :
  is_nan x = false → is_nan y = false → float_le x y = false → SFltb y x = true.
Proof.
  intros Hx Hy Hle. apply SFltb_key; [done..|].
  assert (¬ key_le (float_key x) (float_key y)) as Hn.
  { intros K. apply float_le_key in K; [congruence|done..]. }
  key_order.
Qed.

Lemma float_le_lt_trans x y z :
  is_nan x = false → is_nan y = false → is_nan z = false →
  float_le x y = true → SFltb y z = true → SFltb x z = true.
Proof.
  intros Hx Hy Hz Hxy Hyz.
  apply float_le_key in Hxy; [|done..]. apply SFltb_key in Hyz; [|done..].
  apply SFltb_key; [done..|]. key_order.
Qed.

Lemma float_lt_le x y :
  is_nan x = false → is_nan y = false → SFltb x y = true → float_le x y = true.
Proof.
  intros Hx Hy Hxy. apply SFltb_key in Hxy; [|done..].
  apply float_le_key; [done..|]. key_order.
Qed.

(** ** argmax *)

(** The index returned lies inside the array, whatever the array holds. *)
Lemma argmax_loop_bound ip : ∀ mp max_ind i,
  (max_ind < i)%nat → (argmax_loop mp max_ind i ip < i + length ip)%nat.
Proof.
  induction ip as [|x ip IH]; intros mp max_ind i Hlt; simpl; [lia|].
  destruct (negb (float_le x mp)).
  - destruct (is_nan x); [lia|]. specialize (IH x i (S i)). lia.
  - specialize (IH mp max_ind (S i)). lia.
Qed.

Lemma np_argmax_bound a : a ≠ [] → ∃ i, np_argmax a = Ok i ∧ (i < length a)%nat.
Proof.
  destruct a as [|mp ip]; [done|]. intros _. simpl.
  destruct (is_nan mp); eexists; (split; [reflexivity|]); [lia|].
  pose proof (argmax_loop_bound ip mp 0%nat 1%nat). lia.
Qed.

(** The loop invariant: [mp] is the entry at [max_ind], no scanned entry is
    above it, and every entry before [max_ind] is strictly below it. *)
Lemma argmax_loop_first_max ip : ∀ pre mp max_ind,
  Forall (λ x, is_nan x = false) (pre ++ ip) →
  pre !! max_ind = Some mp →
  (∀ j x, pre !! j = Some x → float_le x mp = true) →
  (∀ j x, (j < max_ind)%nat → pre !! j = Some x → SFltb x mp = true) →
  ∃ best,
    (pre ++ ip) !! argmax_loop mp max_ind (length pre) ip = Some best
    ∧ (∀ j x, (pre ++ ip) !! j = Some x → float_le x best = true)
    ∧ (∀ j x, (j < argmax_loop mp max_ind (length pre) ip)%nat →
              (pre ++ ip) !! j = Some x → SFltb x best = true).
Proof.
  induction ip as [|y ip IH]; intros pre mp max_ind Hnan Hmp Hle Hlt.
  - simpl. rewrite app_nil_r. exists mp. auto.
  - assert (is_nan mp = false) as Hmpn.
    { rewrite Forall_forall in Hnan. apply Hnan, elem_of_app. left.
      by eapply list_elem_of_lookup_2. }
    assert (is_nan y = false) as Hyn.
    { rewrite Forall_forall in Hnan. apply Hnan, elem_of_app. right. by left. }
    assert (∀ j x, pre !! j = Some x → is_nan x = false) as Hpren.
    { intros j x Hj. rewrite Forall_forall in Hnan. apply Hnan, elem_of_app. left.
      by eapply list_elem_of_lookup_2. }
    simpl. rewrite Hyn.
    replace (pre ++ y :: ip) with ((pre ++ [y]) ++ ip) in * by by rewrite <- app_assoc.
    replace (S (length pre)) with (length (pre ++ [y]))
      by (rewrite length_app; simpl; lia).
    destruct (float_le y mp) eqn:Hy; simpl.
    + apply IH; [done| | |].
      * by apply lookup_app_l_Some.
      * intros j x Hj. apply lookup_app_Some in Hj as [Hj|[_ Hj]]; [by eapply Hle|].
        apply list_lookup_singleton_Some in Hj as [_ <-]. done.
      * intros j x Hjlt Hj. apply lookup_app_Some in Hj as [Hj|[Hge _]]; [by eapply Hlt|].
        apply lookup_lt_Some in Hmp. lia.
    + apply float_not_le_lt in Hy; [|done..].
      apply IH; [done| | |].
      * rewrite lookup_app_r by lia. by rewrite Nat.sub_diag.
      * intros j x Hj. apply lookup_app_Some in Hj as [Hj|[_ Hj]].
        -- apply float_lt_le; [by eapply Hpren|done|].
           eapply (float_le_lt_trans x mp y); eauto.
        -- apply list_lookup_singleton_Some in Hj as [_ <-]. by apply float_le_refl.
      * intros j x Hjlt Hj. rewrite lookup_app_l in Hj by done.
        eapply (float_le_lt_trans x mp y); eauto.
Qed.

(** Without NaN, [np.argmax] returns the first index that holds the maximum. *)
Lemma np_argmax_first_max a :
  a ≠ [] → Forall (λ x, is_nan x = false) a →
  ∃ i best,
    np_argmax a = Ok i
    ∧ a !! i = Some best
    ∧ (∀ j x, a !! j = Some x → float_le x best = true)
    ∧ (∀ j x, (j < i)%nat → a !! j = Some x → SFltb x best = true).
Proof.
  destruct a as [|mp ip]; [done|]. intros _ Hnan. simpl.
  assert (is_nan mp = false) as Hmpn by (by apply Forall_cons in Hnan as [? _]).
  rewrite Hmpn.
  destruct (argmax_loop_first_max ip [mp] mp 0%nat) as (best & Hbest & Hle & Hlt).
  - exact Hnan.
  - reflexivity.
  - intros j x Hj. apply list_lookup_singleton_Some in Hj as [_ <-].
    by apply float_le_refl.
  - intros j x Hj. lia.
  - exists (argmax_loop mp 0 1 ip), best. simpl in *. auto.
Qed.

(** ** The scores dictionary *)

Lemma scores_loop_eq predictions labels : ∀ k scores,
  (k + length labels ≤ length predictions)%nat →
  scores_loop predictions (enumerate_from k labels) scores
  = Ok (insert_scores scores (zip labels (drop k predictions))).
Proof.
  induction labels as [|l labels IH]; intros k scores Hlen; [reflexivity|].
  simpl in Hlen. destruct (lookup_lt_is_Some_2 predictions k) as [p Hp]; [lia|].
  simpl. unfold list_getitem. rewrite Hp. simpl.
  rewrite IH by lia. by rewrite (drop_S _ _ _ Hp).
Qed.

Lemma insert_scores_lookup_other pairs : ∀ scores l,
  l ∉ pairs.*1 → insert_scores scores pairs !! l = scores !! l.
Proof.
  induction pairs as [|[l' p'] pairs IH]; intros scores l Hl; [reflexivity|].
  rewrite fmap_cons, not_elem_of_cons in Hl. destruct Hl as [Hne Hl].
  unfold insert_scores. simpl. fold (insert_scores (<[l':=p']> scores) pairs).
  rewrite IH by done. by rewrite lookup_insert_ne.
Qed.

Lemma insert_scores_lookup pairs : ∀ scores i l p,
  NoDup pairs.*1 → pairs !! i = Some (l, p) →
  insert_scores scores pairs !! l = Some p.
Proof.
  induction pairs as [|[l' p'] pairs IH]; intros scores i l p Hnd Hi; [done|].
  rewrite fmap_cons in Hnd. apply NoDup_cons in Hnd as [Hnotin Hnd].
  unfold insert_scores. simpl. fold (insert_scores (<[l':=p']> scores) pairs).
  destruct i as [|i]; simpl in Hi.
  - injection Hi as -> ->. rewrite insert_scores_lookup_other by done.
    by rewrite lookup_insert_eq.
  - by eapply IH.
Qed.

Lemma insert_scores_size pairs : ∀ scores,
  NoDup pairs.*1 → (∀ l, l ∈ pairs.*1 → scores !! l = None) →
  size (insert_scores scores pairs) = (size scores + length pairs)%nat.
Proof.
  induction pairs as [|[l' p'] pairs IH]; intros scores Hnd Hfresh; simpl; [lia|].
  rewrite fmap_cons in Hnd, Hfresh. apply NoDup_cons in Hnd as [Hnotin Hnd].
  unfold insert_scores. simpl. fold (insert_scores (<[l':=p']> scores) pairs).
  rewrite IH; [|done|].
  - rewrite map_size_insert_None; [lia|]. apply Hfresh. by left.
  - intros l Hl. rewrite lookup_insert_ne.
    + apply Hfresh. by right.
    + intros ->. done.
Qed.

(** ** The result formatter *)

(** With as many scores as labels, and at least one, [format_predictions]
    reaches its final [return]: no step in between raises. *)
Lemma format_predictions_success predictions emotion_labels text input_sequence :
  length predictions = length emotion_labels → predictions ≠ [] →
  ∃ i best label,
    np_argmax predictions = Ok i
    ∧ predictions !! i = Some best
    ∧ emotion_labels !! i = Some label
    ∧ format_predictions predictions emotion_labels text input_sequence
      = Ok (Success {| emotion := label;
                       confidence := best;
                       scores := insert_scores ∅ (zip emotion_labels predictions);
                       model := py "bilstm_onnx";
                       text_length := length text;
                       tokens_used := np_count_nonzero input_sequence |}).
Proof.
  intros Hlen Hne.
  destruct (np_argmax_bound predictions Hne) as (i & Hi & Hlt).
  destruct (lookup_lt_is_Some_2 predictions i Hlt) as [best Hbest].
  destruct (lookup_lt_is_Some_2 emotion_labels i) as [label Hlabel]; [lia|].
  exists i, best, label. do 3 (split; [done|]).
  unfold format_predictions. rewrite Hlen, Nat.eqb_refl. simpl.
  rewrite Hi. simpl. unfold list_getitem. rewrite Hbest. simpl.
  unfold enumerate. rewrite scores_loop_eq by (simpl; lia). simpl.
  rewrite Hlabel. reflexivity.
Qed.

Lemma format_predictions_mismatch predictions emotion_labels text input_sequence :
  length predictions ≠ length emotion_labels →
  format_predictions predictions emotion_labels text input_sequence
  = Ok (Failure (mismatch_message (length predictions) (length emotion_labels))).
Proof.
  intros Hne. unfold format_predictions.
  destruct (Nat.eqb_spec (length predictions) (length emotion_labels)); [done|].
  reflexivity.
Qed.

(** C3. With as many scores as labels (at least one, none of them NaN), the
    formatter succeeds; its emotion is the label at an index [i] whose score
    no other score exceeds, every score before [i] is strictly smaller (the
    first maximum wins a tie), and its confidence is the score at [i],
    unchanged. *)
Theorem format_result_argmax (predictions : list spec_float)
    (emotion_labels : list pystr) (text : pystr) (input_sequence : list (list Z)) :
  length predictions = length emotion_labels →
  predictions ≠ [] →
  Forall (λ x, is_nan x = false) predictions →
  ∃ (i : nat) (best : spec_float) (r : Prediction),
    format_result predictions emotion_labels text input_sequence = Ok (Success r)
    ∧ predictions !! i = Some best
    ∧ emotion_labels !! i = Some (emotion r)
    ∧ confidence r = best
    ∧ (∀ j x, predictions !! j = Some x → float_le x best = true)
    ∧ (∀ j x, (j < i)%nat → predictions !! j = Some x → SFltb x best = true).
Proof.
  intros Hlen Hne Hnan.
  destruct (np_argmax_first_max predictions Hne Hnan) as (i & best & Hi & Hbest & Hle & Hlt).
  destruct (format_predictions_success predictions emotion_labels text input_sequence Hlen Hne)
    as (i' & best' & label & Hi' & Hbest' & Hlabel & Hfmt).
  assert (i' = i) as -> by (unfold Ok in *; congruence).
  assert (best' = best) as -> by congruence.
  eexists i, best, _. unfold format_result. rewrite Hfmt. simpl.
  split; [reflexivity|]. simpl. auto.
Qed.

(** C4, as the code has it. When the score vector and the label list are not
    both empty, the formatter returns a failure exactly when their lengths
    differ, and that failure's message gives the number of scores, the number
    of labels, and the number of scores again as what the model expects. *)
Theorem format_result_failure_iff (predictions : list spec_float)
    (emotion_labels : list pystr) (text : pystr) (input_sequence : list (list Z)) :
  predictions ≠ [] ∨ emotion_labels ≠ [] →
  ∃ res : PredictionResult,
    format_result predictions emotion_labels text input_sequence = Ok res
    ∧ (success res = false ↔ length predictions ≠ length emotion_labels)
    ∧ (length predictions ≠ length emotion_labels →
       res = Failure (py "Model output size (" ++ py_int (length predictions)
                      ++ py ") doesn't match emotion labels count ("
                      ++ py_int (length emotion_labels)
                      ++ py "). Model expects " ++ py_int (length predictions)
                      ++ py " emotions.")).
Proof.
  intros Hne.
  destruct (decide (length predictions = length emotion_labels)) as [Hlen|Hlen].
  - assert (predictions ≠ []) as Hp.
    { destruct Hne as [?|Hl]; [done|]. intros ->. destruct emotion_labels; done. }
    destruct (format_predictions_success predictions emotion_labels text input_sequence Hlen Hp)
      as (i & best & label & _ & _ & _ & Hfmt).
    eexists. unfold format_result. rewrite Hfmt. simpl.
    split; [reflexivity|]. simpl. split; [|done]. split; [done|done].
  - eexists. unfold format_result. rewrite format_predictions_mismatch by done. simpl.
    split; [reflexivity|]. simpl. split; [done|]. intros _. reflexivity.
Qed.

(** C7, as the code has it. When the labels are pairwise distinct, a
    successful formatting of as many scores as labels gives a scores
    dictionary with as many entries as labels, and the entry of the label at
    index [i] is the score at index [i]. *)
Theorem scores_one_entry_per_label (predictions : list spec_float)
    (emotion_labels : list pystr) (text : pystr) (input_sequence : list (list Z))
    (r : Prediction) :
  length predictions = length emotion_labels →
  NoDup emotion_labels →
  format_result predictions emotion_labels text input_sequence = Ok (Success r) →
  size (scores r) = length emotion_labels
  ∧ ∀ (i : nat) (label : pystr),
      emotion_labels !! i = Some label →
      ∃ p, predictions !! i = Some p ∧ scores r !! label = Some p.
Proof.
  intros Hlen Hnd Hres.
  assert (predictions ≠ []) as Hp.
  { intros ->. destruct emotion_labels; [|done]. vm_compute in Hres. discriminate. }
  destruct (format_predictions_success predictions emotion_labels text input_sequence Hlen Hp)
    as (i0 & best & label0 & _ & _ & _ & Hfmt).
  unfold format_result in Hres. rewrite Hfmt in Hres. simpl in Hres.
  injection Hres as <-. simpl.
  assert ((zip emotion_labels predictions).*1 = emotion_labels) as Hfst
    by (apply fst_zip; lia).
  split.
  - rewrite insert_scores_size.
    + rewrite map_size_empty, length_zip. lia.
    + by rewrite Hfst.
    + intros l _. apply lookup_empty.
  - intros i label Hi.
    destruct (lookup_lt_is_Some_2 predictions i) as [p Hpi].
    { apply lookup_lt_Some in Hi. lia. }
    exists p. split; [done|].
    apply (insert_scores_lookup _ _ i); [by rewrite Hfst|].
    apply lookup_zip_with_Some. eauto.
Qed.

Lemma format_result_argmax_witness :
  ∃ r : Prediction,
    format_result [p050; p050] [py "x"; py "y"] (py "hi") [[1; 0]] = Ok (Success r)
    ∧ emotion r = py "x"
    ∧ confidence r = p050.
Proof.
  destruct (format_result_argmax [p050; p050] [py "x"; py "y"] (py "hi") [[1; 0]])
    as (i & best & r & Hres & Hbest & Hlabel & Hconf & _ & Hfirst).
  - reflexivity.
  - discriminate.
  - repeat constructor.
  - exists r. split; [exact Hres|].
    destruct i as [|[|i]].
    + simpl in Hbest, Hlabel. split; congruence.
    + simpl in Hbest. injection Hbest as <-.
      specialize (Hfirst 0%nat p050 (Nat.lt_0_succ 0) eq_refl). vm_compute in Hfirst.
      discriminate.
    + simpl in Hbest. discriminate.
Defined.

(** C4 fails where both the scores and the labels are empty: the lengths
    agree, [np.argmax] raises on the empty array, and the handler of
    [predict_emotion] turns that into a failure. *)
Lemma format_result_failure_counterexample :
  format_result [] [] (py "hi") [[1; 0]]
  = Ok (Failure (py "Prediction failed: attempt to get argmax of an empty sequence"))
  ∧ ¬ (∀ predictions emotion_labels text input_sequence res,
         format_result predictions emotion_labels text input_sequence = Ok res →
         (success res = false ↔ length predictions ≠ length emotion_labels)).
Proof.
  split; [vm_compute; reflexivity|].
  intros Hclaim.
  destruct (Hclaim [] [] (py "hi") [[1; 0]] _ eq_refl) as [Hfail _].
  by apply Hfail.
Defined.

Lemma format_result_failure_iff_witness :
  format_result [p020; p030; p050] [py "a"; py "b"] (py "hi") [[1; 0]]
  = Ok (Failure (py "Model output size (3) doesn't match emotion labels count (2). Model expects 3 emotions.")).
Proof.
  destruct (format_result_failure_iff [p020; p030; p050] [py "a"; py "b"] (py "hi") [[1; 0]])
    as (res & Hres & _ & Hmsg).
  - left. discriminate.
  - rewrite Hres, Hmsg by (simpl; lia). vm_compute. reflexivity.
Defined.

(** C7 fails where a label is repeated: the dictionary keeps one entry for
    it, holding the score of its last occurrence. *)
Lemma scores_one_entry_per_label_counterexample :
  ∃ r : Prediction,
    format_result [p020; p050] [py "a"; py "a"] (py "hi") [[1; 0]] = Ok (Success r)
    ∧ size (scores r) = 1%nat
    ∧ size (scores r) ≠ length [py "a"; py "a"]
    ∧ scores r !! py "a" = Some p050
    ∧ [p020; p050] !! 0%nat = Some p020.
Proof.
  eexists. split; [vm_compute; reflexivity|].
  split; [vm_compute; reflexivity|].
  split; [vm_compute; discriminate|].
  split; vm_compute; reflexivity.
Defined.

Lemma scores_one_entry_per_label_witness :
  ∃ r : Prediction,
    format_result [p020; p050] [py "a"; py "b"] (py "hi") [[1; 0]] = Ok (Success r)
    ∧ size (scores r) = 2%nat
    ∧ scores r !! py "a" = Some p020
    ∧ scores r !! py "b" = Some p050.
Proof.
  assert (∃ r, format_result [p020; p050] [py "a"; py "b"] (py "hi") [[1; 0]]
               = Ok (Success r)) as [r Hr]
    by (eexists; vm_compute; reflexivity).
  exists r. split; [exact Hr|].
  destruct (scores_one_entry_per_label [p020; p050] [py "a"; py "b"] (py "hi") [[1; 0]] r)
    as [Hsize Hpair].
  - reflexivity.
  - apply (bool_decide_unpack _). vm_compute. reflexivity.
  - exact Hr.
  - split; [exact Hsize|].
    destruct (Hpair 0%nat (py "a") eq_refl) as (pa & Hpa & Hsa).
    destruct (Hpair 1%nat (py "b") eq_refl) as (pb & Hpb & Hsb).
    simpl in Hpa, Hpb. split; congruence.
Defined.

(** ** predict_emotion *)

Lemma count_nonzero_padded (mapped : list Z) (n : nat) :
  Forall (λ z, z ≠ 0) mapped →
  np_count_nonzero [mapped ++ replicate n 0] = Z.of_nat (length mapped).
Proof.
  intros Hnz. unfold np_count_nonzero. simpl. rewrite app_nil_r. f_equal.
  induction Hnz as [|z mapped Hz Hnz IH]; simpl.
  - induction n as [|n IHn]; [reflexivity|exact IHn].
  - destruct (Z.eqb_spec z 0); [done|]. simpl. by rewrite IH.
Qed.

Lemma lookup_word_az w : Forall (λ c, is_az c = true) w → lookup_word w ≠ 0.
Proof.
  intros Haz Hzero. apply lookup_word_zero in Hzero. subst w.
  change PAD with (60%N :: py "PAD>") in Haz.
  apply Forall_cons in Haz as [Hc _]. discriminate.
Qed.

Section ScriptProperties.

Variable str_lower : pystr → pystr.

(** What [predict_emotion] does with a tokenizer built by the constructor:
    tokenization succeeds, and the outcome of the session decides. *)
Lemma predict_emotion_eq session text emotion_labels ml vs :
  ∃ input_sequence,
    tokenize str_lower (TextTokenizer_init ml vs) text = Ok input_sequence
    ∧ predict_emotion str_lower session text emotion_labels (TextTokenizer_init ml vs)
      = match session input_sequence with
        | inr predictions => format_result predictions emotion_labels text input_sequence
        | inl (Exception msg) => Ok (Failure (py "Prediction failed: " ++ msg))
        | inl (SystemExit code) => Raise (SystemExit code)
        end.
Proof.
  eexists. split; [apply tokenize_eq|].
  unfold predict_emotion. rewrite tokenize_eq. simpl.
  destruct (session _) as [[msg|code]|predictions]; reflexivity.
Qed.

Lemma format_result_fields predictions emotion_labels text input_sequence r :
  format_result predictions emotion_labels text input_sequence = Ok (Success r) →
  text_length r = length text ∧ tokens_used r = np_count_nonzero input_sequence.
Proof.
  unfold format_result, format_predictions.
  destruct (negb _); [discriminate|].
  destruct (np_argmax predictions) as [[msg|code]|i]; simpl; [discriminate..|].
  destruct (list_getitem predictions i) as [[msg|code]|best]; simpl; [discriminate..|].
  destruct (scores_loop _ _ _) as [[msg|code]|sc]; simpl; [discriminate..|].
  destruct (list_getitem emotion_labels i) as [[msg|code]|label]; simpl; [discriminate..|].
  intros [= <-]. simpl. done.
Qed.

(** C6. In a successful result, [tokens_used] is the number of non-zero
    entries of the array that [tokenize] produced and the session received,
    and that number is the smaller of the number of words of the normalized
    text and [max_length]. *)
Theorem tokens_used_count (session : InferenceSession) (text : pystr)
    (emotion_labels : list pystr) (ml vs : Z) (r : Prediction) :
  0 ≤ ml →
  predict_emotion str_lower session text emotion_labels (TextTokenizer_init ml vs)
  = Ok (Success r) →
  ∃ (input_sequence : list (list Z)) (predictions : list spec_float),
    tokenize str_lower (TextTokenizer_init ml vs) text = Ok input_sequence
    ∧ session input_sequence = Ok predictions
    ∧ tokens_used r = np_count_nonzero input_sequence
    ∧ tokens_used r
      = Z.min (Z.of_nat (length (str_split (preprocess_text str_lower text)))) ml.
Proof.
  intros Hml Hres.
  destruct (predict_emotion_eq session text emotion_labels ml vs) as (seq & Htok & Heq).
  rewrite Heq in Hres.
  destruct (session seq) as [[msg|code]|predictions] eqn:Hrun; [discriminate..|].
  apply format_result_fields in Hres as [_ Hused].
  exists seq, predictions. do 3 (split; [done|]).
  rewrite Hused. rewrite tokenize_eq in Htok. injection Htok as <-.
  rewrite pad_sequence_eq, split_preprocess.
  rewrite count_nonzero_padded.
  - rewrite length_fmap. unfold slice_to. rewrite (proj2 (Z.leb_le 0 ml) Hml).
    rewrite length_take. lia.
  - apply Forall_fmap. unfold slice_to. rewrite (proj2 (Z.leb_le 0 ml) Hml).
    apply Forall_take. eapply Forall_impl; [apply kept_words_az|].
    intros w Hw. by apply lookup_word_az.
Qed.

Lemma predict_emotion_text_length session text emotion_labels ml vs r :
  predict_emotion str_lower session text emotion_labels (TextTokenizer_init ml vs)
  = Ok (Success r) →
  text_length r = length text.
Proof.
  intros Hres.
  destruct (predict_emotion_eq session text emotion_labels ml vs) as (seq & _ & Heq).
  rewrite Heq in Hres.
  destruct (session seq) as [[msg|code]|predictions]; [discriminate..|].
  by apply format_result_fields in Hres as [Hlen _].
Qed.

(** ** main *)

#[local] Opaque predict_emotion str_strip str_split_on.

(** Once the arguments are accepted and the model is loaded, [main] prints
    what [predict_emotion] returns and ends normally, whether that result
    is a success or a failure. *)
Lemma run_prints_prediction p a0 model_path text labels_arg rest session res :
  ort_installed p = true →
  argv p = a0 :: model_path :: text :: labels_arg :: rest →
  text ≠ [] → str_strip text ≠ [] →
  ort_InferenceSession p model_path = Ok session →
  predict_emotion str_lower session text (str_split_on comma labels_arg)
    (TextTokenizer_init 80 10000) = Ok res →
  run str_lower p = ([res], 0).
Proof.
  intros Hort Hargv Htext Hstrip Hload Hres.
  unfold run, script, main. rewrite Hort, Hargv.
  unfold io_try_except, io_bind, io_lift, io_ret, print_json, sys_exit, load_onnx_model.
  simpl. rewrite bool_decide_eq_false_2 by done.
  destruct (str_strip text) eqn:Hs; [done|]. simpl.
  rewrite Hload. simpl. rewrite Hres. reflexivity.
Qed.


(** A run that prints a success reached the last [print] of [main]: the
    text is the third entry of [sys.argv], and the exit status is 0. *)
Lemma run_success p out code r :
  run str_lower p = (out, code) → Success r ∈ out →
  ∃ model_path text labels_arg session,
    argv p !! 1%nat = Some model_path
    ∧ argv p !! 2%nat = Some text
    ∧ argv p !! 3%nat = Some labels_arg
    ∧ ort_InferenceSession p model_path = Ok session
    ∧ predict_emotion str_lower session text (str_split_on comma labels_arg)
        (TextTokenizer_init 80 10000) = Ok (Success r)
    ∧ out = [Success r] ∧ code = 0.
Proof.
  unfold run, script, main.
  unfold io_try_except, io_bind, io_lift, io_ret, print_json, sys_exit, load_onnx_model.
  destruct (ort_installed p).
  2:{ simpl. intros [= <- <-] Hin. apply list_elem_of_singleton in Hin. discriminate. }
  destruct (argv p) as [|a0 [|model_path [|text [|labels_arg rest]]]];
    try (simpl; intros [= <- <-] Hin; apply list_elem_of_singleton in Hin; discriminate).
  simpl.
  destruct (bool_decide (text = []) || (length (str_strip text) =? 0)%nat).
  { simpl. intros [= <- <-] Hin. apply list_elem_of_singleton in Hin. discriminate. }
  simpl.
  destruct (ort_InferenceSession p model_path) as [[msg|c]|session] eqn:Hload; simpl.
  - intros [= <- <-] Hin. apply list_elem_of_singleton in Hin. discriminate.
  - intros [= <- <-] Hin. by apply elem_of_nil in Hin.
  - destruct (predict_emotion _ _ _ _ _) as [[msg|c]|res] eqn:Hres; simpl.
    + intros [= <- <-] Hin. apply list_elem_of_singleton in Hin. discriminate.
    + intros [= <- <-] Hin. by apply elem_of_nil in Hin.
    + intros [= <- <-] Hin. apply list_elem_of_singleton in Hin. subst res.
      exists model_path, text, labels_arg, session. done.
Qed.

(** C10. In a run that prints a success, [text_length] is the number of
    characters of the text argument as the caller gave it. *)
Theorem text_length_is_raw_length (p : Process) (out : list PredictionResult)
    (code : Z) (r : Prediction) :
  run str_lower p = (out, code) →
  Success r ∈ out →
  ∃ text : pystr, argv p !! 2%nat = Some text ∧ text_length r = length text.
Proof.
  intros Hrun Hin.
  destruct (run_success p out code r Hrun Hin)
    as (model_path & text & labels_arg & session & _ & Htext & _ & _ & Hres & _).
  exists text. split; [done|]. by eapply predict_emotion_text_length.
Qed.

(** C1, at two failing runs. With three arguments, a model that loads and a
    text that is not blank, a label count that differs from the model's
    output size, and an exception raised by the inference run, both print
    a failure object, and the process ends with exit status 0. *)
Theorem main_exit_status_on_prediction_failure :
  run str_lower (sample_process "I am happy" "sad,happy"
                   (constant_session [p020; p030; p050]))
  = ([Failure (py "Model output size (3) doesn't match emotion labels count (2). Model expects 3 emotions.")], 0)
  ∧ run str_lower (sample_process "I am happy" "sad,happy"
                     (raising_session (py "boom")))
    = ([Failure (py "Prediction failed: boom")], 0).
Proof.
  split.
  - apply (run_prints_prediction _ (py "bilstm_onnx_inference.py")
             (py "emotion_bilstm_final.onnx") (py "I am happy") (py "sad,happy") []
             (constant_session [p020; p030; p050])).
    + reflexivity.
    + reflexivity.
    + intros H. vm_compute in H. discriminate.
    + intros H. vm_compute in H. discriminate.
    + reflexivity.
    + destruct (predict_emotion_eq (constant_session [p020; p030; p050])
                  (py "I am happy") (str_split_on comma (py "sad,happy")) 80 10000)
        as (seq & _ & ->).
      vm_compute. reflexivity.
  - apply (run_prints_prediction _ (py "bilstm_onnx_inference.py")
             (py "emotion_bilstm_final.onnx") (py "I am happy") (py "sad,happy") []
             (raising_session (py "boom"))).
    + reflexivity.
    + reflexivity.
    + intros H. vm_compute in H. discriminate.
    + intros H. vm_compute in H. discriminate.
    + reflexivity.
    + destruct (predict_emotion_eq (raising_session (py "boom"))
                  (py "I am happy") (str_split_on comma (py "sad,happy")) 80 10000)
        as (seq & _ & ->).
      vm_compute. reflexivity.
Qed.

End ScriptProperties.

Lemma tokens_used_count_witness :
  ∃ r : Prediction,
    predict_emotion ascii_lower (constant_session [p020; p050]) (py "I am SO happy!!")
      [py "sad"; py "happy"] (TextTokenizer_init 80 10000) = Ok (Success r)
    ∧ tokens_used r = 4.
Proof.
  assert (∃ r, predict_emotion ascii_lower (constant_session [p020; p050])
                 (py "I am SO happy!!") [py "sad"; py "happy"]
                 (TextTokenizer_init 80 10000) = Ok (Success r)) as [r Hr]
    by (eexists; vm_compute; reflexivity).
  exists r. split; [exact Hr|].
  destruct (tokens_used_count ascii_lower _ _ _ 80 10000 r ltac:(lia) Hr)
    as (seq & predictions & _ & _ & _ & Hmin).
  rewrite Hmin. vm_compute. reflexivity.
Defined.

Lemma text_length_is_raw_length_witness :
  ∃ r : Prediction,
    run ascii_lower (sample_process "I am SO happy!!" "sad,happy"
                       (constant_session [p020; p050]))
    = ([Success r], 0)
    ∧ emotion r = py "happy"
    ∧ text_length r = 15%nat
    ∧ length (preprocess_text ascii_lower (py "I am SO happy!!")) = 13%nat.
Proof.
  assert (∃ r, run ascii_lower (sample_process "I am SO happy!!" "sad,happy"
                                  (constant_session [p020; p050]))
               = ([Success r], 0)) as [r Hr]
    by (eexists; vm_compute; reflexivity).
  exists r. split; [exact Hr|].
  destruct (text_length_is_raw_length ascii_lower _ _ _ r Hr) as (text & Htext & Hlen).
  - apply list_elem_of_singleton. reflexivity.
  - split; [|split].
    + vm_compute in Hr. injection Hr as <-. reflexivity.
    + rewrite Hlen. vm_compute in Htext. injection Htext as <-. reflexivity.
    + vm_compute. reflexivity.
Defined.

(** * Further properties of the text script *)

(** ** The vocabulary *)

Lemma index_fold_lookup ws : ∀ (k : nat) (d : gmap pystr Z) w v,
  (foldl (λ d iw, <[iw.2 := Z.of_nat iw.1 + 1]> d) d (enumerate_from k ws)) !! w = Some v
  ↔ (∃ i, ws !! i = Some w ∧ v = Z.of_nat (k + i) + 1
          ∧ (∀ j, (i < j)%nat → ws !! j ≠ Some w))
    ∨ ((w ∉ ws) ∧ d !! w = Some v).
Proof.
  induction ws as [|x ws IH]; intros k d w v.
  - simpl. split.
    + intros Hd. right. split; [apply not_elem_of_nil|done].
    + intros [(i & Hi & _)|[_ Hd]]; done.
  - simpl. rewrite IH. split.
    + intros [(i & Hi & -> & Hlast)|[Hnot Hd]].
      * left. exists (S i). split; [done|]. split; [lia|].
        intros [|j] Hj; [lia|]. simpl. apply Hlast. lia.
      * destruct (decide (x = w)) as [->|Hne].
        -- rewrite lookup_insert_eq in Hd. injection Hd as <-.
           left. exists 0%nat. split; [done|]. split; [lia|].
           intros [|j] Hj; [lia|]. simpl. intros Hj'. apply Hnot.
           by eapply list_elem_of_lookup_2.
        -- rewrite lookup_insert_ne in Hd by done. right. split; [|done].
           apply not_elem_of_cons. split; [congruence|done].
    + intros [(i & Hi & -> & Hlast)|[Hnot Hd]].
      * destruct i as [|i]; simpl in Hi.
        -- injection Hi as ->. right. split.
           ++ intros Hin. apply list_elem_of_lookup_1 in Hin as [j Hj].
              by apply (Hlast (S j)); [lia|].
           ++ rewrite lookup_insert_eq. f_equal. lia.
        -- left. exists i. split; [done|]. split; [lia|].
           intros j Hj. apply (Hlast (S j)). lia.
      * apply not_elem_of_cons in Hnot as [Hne Hnot]. right. split; [done|].
        by rewrite lookup_insert_ne.
Qed.

(** The dictionary comprehension of [_build_basic_vocab] gives each word of
    the list one plus the position of its last occurrence, and has no other
    key. *)
Theorem index_words_lookup (words : list pystr) (w : pystr) (v : Z) :
  index_words words !! w = Some v
  ↔ ∃ i : nat, words !! i = Some w ∧ v = Z.of_nat i + 1
               ∧ (∀ j : nat, (i < j)%nat → words !! j ≠ Some w).
Proof.
  unfold index_words, enumerate. rewrite index_fold_lookup. split.
  - intros [H|[_ H]]; [exact H|]. by rewrite lookup_empty in H.
  - intros H. left. exact H.
Qed.

Lemma vocab_table :
  map_Forall (λ k v,
      (v = 1 → k = UNK) ∧ v ≠ 2
      ∧ map_Forall (λ k' v', v = v' → k = k') _build_basic_vocab)
    _build_basic_vocab.
Proof. apply (bool_decide_unpack _). vm_compute. reflexivity. Qed.

(** The vocabulary gives different words different indices. *)
Theorem vocab_index_injective (w1 w2 : pystr) (v : Z) :
  _build_basic_vocab !! w1 = Some v →
  _build_basic_vocab !! w2 = Some v →
  w1 = w2.
Proof.
  intros H1 H2. apply vocab_table in H1 as (_ & _ & Hinj).
  by apply (Hinj w2 v H2).
Qed.

(** The two reserved indices belong to the two markers only: a key with
    index 0 is ['<PAD>'], a key with index 1 is ['<UNK>'], and every other
    key has an index from 3 to 127 (2, the first index of ['<UNK>'], is
    left unused). *)
Theorem vocab_reserved_indices (w : pystr) (v : Z) :
  _build_basic_vocab !! w = Some v →
  (v = 0 → w = PAD) ∧ (v = 1 → w = UNK) ∧ (w ≠ PAD → w ≠ UNK → 3 ≤ v ≤ 127).
Proof.
  intros Hw. pose proof (vocab_entries w v Hw) as [Hpad Hrange].
  apply vocab_table in Hw as (Hunk & Htwo & _).
  split; [done|]. split; [done|]. intros Hnp Hnu.
  assert (v ≠ 0) by (intros ?; by apply Hnp, Hpad).
  assert (v ≠ 1) by (intros ?; by apply Hnu, Hunk).
  lia.
Qed.

Lemma vocab_index_injective_witness :
  _build_basic_vocab !! py "happy" = Some 45 ∧ py "happy" = py "happy".
Proof.
  assert (_build_basic_vocab !! py "happy" = Some 45) as H by (vm_compute; reflexivity).
  split; [exact H|]. exact (vocab_index_injective (py "happy") (py "happy") 45 H H).
Defined.

Lemma vocab_reserved_indices_witness :
  _build_basic_vocab !! py "which" = Some 127 ∧ 3 ≤ 127 ≤ 127.
Proof.
  assert (_build_basic_vocab !! py "which" = Some 127) as H by (vm_compute; reflexivity).
  split; [exact H|].
  destruct (vocab_reserved_indices (py "which") 127 H) as (_ & _ & Hrange).
  apply Hrange; intros Heq; vm_compute in Heq; discriminate.
Defined.

(** ** Strings *)

Lemma split_scan_concat s :
  (split_scan s).1 ++ concat (split_scan s).2
  = List.filter (λ c, negb (is_space c)) s.
Proof.
  induction s as [|c s IH]; [reflexivity|]. simpl.
  destruct (split_scan s) as [w ws]. simpl in *.
  destruct (is_space c); simpl.
  - rewrite <- IH. by destruct w.
  - by rewrite IH.
Qed.

(** [split()] loses nothing but whitespace: its words are not empty, hold
    no whitespace, and put end to end are the text without its whitespace. *)
Theorem str_split_concat (s : pystr) :
  Forall is_word (str_split s)
  ∧ concat (str_split s) = List.filter (λ c, negb (is_space c)) s.
Proof.
  split; [apply str_split_words|].
  rewrite <- split_scan_concat. unfold str_split.
  destruct (split_scan s) as [w ws]. simpl. by destruct w.
Qed.

(** [' '.join] followed by [split()] gives back a list of words. *)
Theorem str_split_join_words (ws : list pystr) :
  Forall is_word ws → str_split (str_join (py " ") ws) = ws.
Proof.
  destruct ws as [|w ws]; [reflexivity|]. intros Hall.
  unfold str_split. rewrite (split_scan_join w ws Hall).
  apply Forall_cons in Hall as [[Hne _] _]. destruct w; [done|reflexivity].
Qed.

Lemma split_fields_join sep s :
  (split_fields sep s).1 ++ concat ((λ f, sep :: f) <$> (split_fields sep s).2) = s.
Proof.
  induction s as [|c s IH]; [reflexivity|]. simpl.
  destruct (split_fields sep s) as [w ws]. simpl in *.
  destruct (N.eqb_spec c sep) as [->|Hne]; simpl; f_equal; exact IH.
Qed.

Lemma split_fields_count sep s :
  length (split_fields sep s).2 = length (List.filter (λ c, (c =? sep)%N) s)
  ∧ Forall (λ c, c ≠ sep) (split_fields sep s).1
  ∧ Forall (Forall (λ c, c ≠ sep)) (split_fields sep s).2.
Proof.
  induction s as [|c s IH]; [by repeat constructor|]. simpl.
  destruct (split_fields sep s) as [w ws]. simpl in *.
  destruct IH as (IHn & IHw & IHws).
  destruct (N.eqb_spec c sep) as [->|Hne]; simpl.
  - rewrite IHn. by repeat constructor.
  - by repeat constructor.
Qed.

Lemma str_join_cons sep w ws :
  str_join sep (w :: ws) = w ++ concat ((λ f, sep ++ f) <$> ws).
Proof.
  revert w. induction ws as [|w' ws IH]; intros w.
  - simpl. by rewrite app_nil_r.
  - change (str_join sep (w :: w' :: ws)) with (w ++ sep ++ str_join sep (w' :: ws)).
    rewrite IH, fmap_cons. simpl. by rewrite <- app_assoc.
Qed.

Lemma str_split_on_length sep s :
  length (str_split_on sep s) = S (length (List.filter (λ c, (c =? sep)%N) s)).
Proof.
  unfold str_split_on. pose proof (split_fields_count sep s) as (Hn & _ & _).
  destruct (split_fields sep s) as [w ws]. simpl in *. by rewrite Hn.
Qed.

(** [s.split(',')] cuts at every comma and only there: there is one field
    more than there are commas (so the list is never empty), no field holds
    a comma, and [','.join] gives the string back. *)
Theorem str_split_on_join (s : pystr) :
  length (str_split_on comma s)
  = S (length (List.filter (λ c, (c =? comma)%N) s))
  ∧ Forall (Forall (λ c, c ≠ comma)) (str_split_on comma s)
  ∧ str_join [comma] (str_split_on comma s) = s.
Proof.
  unfold str_split_on.
  pose proof (split_fields_join comma s) as Hjoin.
  pose proof (split_fields_count comma s) as (Hn & Hw & Hws).
  destruct (split_fields comma s) as [w ws]. simpl in Hjoin, Hn, Hw, Hws.
  split; [simpl; by rewrite Hn|]. split; [by constructor|].
  rewrite str_join_cons. exact Hjoin.
Qed.

Lemma str_lstrip_nil s : str_lstrip s = [] ↔ Forall (λ c, is_space c = true) s.
Proof.
  induction s as [|c s IH]; simpl; [by split|].
  destruct (is_space c) eqn:Hc.
  - rewrite IH. split; [by constructor|]. by intros [_ ?]%Forall_cons.
  - split; [done|]. intros [? _]%Forall_cons. congruence.
Qed.

Lemma str_lstrip_spaces s : Forall (λ c, is_space c = true) (str_lstrip s) → str_lstrip s = [].
Proof.
  induction s as [|c s IH]; simpl; [done|].
  destruct (is_space c) eqn:Hc; [done|].
  intros [? _]%Forall_cons. congruence.
Qed.

Lemma str_strip_empty_iff (s : pystr) :
  str_strip s = [] ↔ Forall (λ c, is_space c = true) s.
Proof.
  unfold str_strip. split.
  - intros H. apply (f_equal reverse) in H.
    rewrite reverse_involutive, reverse_nil in H.
    apply str_lstrip_nil, Forall_reverse, str_lstrip_spaces in H.
    by apply str_lstrip_nil.
  - intros H. apply str_lstrip_nil in H. rewrite H. reflexivity.
Qed.

(** [strip()] leaves nothing exactly when every character is whitespace:
    these are the texts that [main] rejects as empty. *)
Theorem str_strip_nil (s : pystr) :
  str_strip s = [] ↔ Forall (λ c, is_space c = true) s.
Proof.
  unfold str_strip. split.
  - intros H. apply (f_equal reverse) in H.
    rewrite reverse_involutive, reverse_nil in H.
    apply str_lstrip_nil, Forall_reverse, str_lstrip_spaces in H.
    by apply str_lstrip_nil.
  - intros H. apply str_lstrip_nil in H. rewrite H. reflexivity.
Qed.

Lemma str_split_join_words_witness :
  str_split (str_join (py " ") [py "very"; py "happy"]) = [py "very"; py "happy"].
Proof.
  apply str_split_join_words.
  repeat constructor; discriminate.
Defined.

(** ** The normalized text *)

Lemma str_join_head (w : pystr) (ws : list pystr) :
  w ≠ [] → str_join (py " ") (w :: ws) !! 0%nat = w !! 0%nat.
Proof.
  intros Hw. destruct w as [|c w]; [done|]. by destruct ws.
Qed.

Lemma str_join_space_between (ws : list pystr) :
  Forall (λ w, w ≠ [] ∧ Forall (λ c, is_az c = true) w) ws →
  ∀ i, str_join (py " ") ws !! i = Some 32%N →
  ∃ i' a b,
    i = S i'
    ∧ str_join (py " ") ws !! i' = Some a ∧ is_az a = true
    ∧ str_join (py " ") ws !! S i = Some b ∧ is_az b = true.
Proof.
  induction 1 as [|w ws [Hne Haz] Hws IH]; intros i Hi; [done|].
  assert (∀ j, w !! j ≠ Some 32%N) as Hnospace.
  { intros j Hj. apply list_elem_of_lookup_2 in Hj.
    rewrite Forall_forall in Haz. by specialize (Haz _ Hj). }
  destruct ws as [|w' ws]; [by apply Hnospace in Hi|].
  change (str_join (py " ") (w :: w' :: ws))
    with (w ++ 32%N :: str_join (py " ") (w' :: ws)) in *.
  set (rest := str_join (py " ") (w' :: ws)) in *.
  unfold pystr in *.
  apply lookup_app_Some in Hi as [Hi|[Hge Hi]]; [by apply Hnospace in Hi|].
  destruct (i - length w)%nat as [|j] eqn:Hj.
  - (* the space that follows [w] *)
    destruct (lookup_lt_is_Some_2 w (length w - 1)) as [a Ha].
    { destruct w; [done|]. simpl. lia. }
    apply Forall_cons in Hws as [[Hne' Haz'] _].
    destruct w' as [|b w']; [done|].
    exists (length w - 1)%nat, a, b.
    split; [destruct w; [done|]; simpl in *; lia|].
    split; [by rewrite lookup_app_l by (destruct w; [done|]; simpl; lia)|].
    split; [rewrite Forall_forall in Haz; eapply Haz, list_elem_of_lookup_2, Ha|].
    split.
    + rewrite lookup_app_r by lia. replace (S i - length w)%nat with 1%nat by lia.
      simpl. unfold rest. by rewrite str_join_head.
    + by apply Forall_cons in Haz' as [? _].
  - (* a space inside the rest *)
    simpl in Hi. destruct (IH j Hi) as (j' & a & b & -> & Ha & Haa & Hb & Hbb).
    exists (length w + S j')%nat, a, b.
    split; [lia|].
    split; [rewrite lookup_app_r by lia;
            by replace (length w + S j' - length w)%nat with (S j') by lia|].
    split; [done|]. split; [|done].
    rewrite lookup_app_r by lia.
    by replace (S i - length w)%nat with (S (S (S j'))) by lia.
Qed.

Section MoreTokenizerProperties.

Variable str_lower : pystr → pystr.

(** The normalized text is made of lowercase ASCII letters and spaces, and
    each of its spaces stands between two letters: none at either end, no
    two in a row. *)
Lemma kept_words_preprocess (t : pystr) :
  (∀ s : pystr, Forall is_plain s → str_lower s = s) →
  kept_words str_lower (preprocess_text str_lower t) = kept_words str_lower t.
Proof.
  intros Hlower. pose proof (preprocess_plain str_lower t) as Hplain.
  unfold kept_words at 1. rewrite (Hlower _ Hplain), re_sub_strip_id.
  - apply split_preprocess.
  - eapply Forall_impl; [exact Hplain|]. apply is_plain_kept.
Qed.

Theorem preprocess_text_shape (t : pystr) :
  Forall is_plain (preprocess_text str_lower t)
  ∧ ∀ i : nat, preprocess_text str_lower t !! i = Some 32%N →
      ∃ (i' : nat) (a b : N),
        i = S i'
        ∧ preprocess_text str_lower t !! i' = Some a ∧ is_az a = true
        ∧ preprocess_text str_lower t !! S i = Some b ∧ is_az b = true.
Proof.
  split; [apply preprocess_plain|].
  unfold preprocess_text. apply str_join_space_between.
  pose proof (kept_words_are_words str_lower t) as Hw.
  pose proof (kept_words_az str_lower t) as Haz.
  unfold kept_words in *.
  rewrite Forall_forall in Hw, Haz. apply Forall_forall. intros w Hin.
  split; [apply (Hw w Hin)|apply (Haz w Hin)].
Qed.

(** ** More on tokenize *)

(** Truncation: the words after the first [max_length] have no effect on
    the result. *)
Theorem tokenize_truncation (ml vs : Z) (t1 t2 : pystr) :
  0 ≤ ml →
  take (Z.to_nat ml) (str_split (preprocess_text str_lower t1))
  = take (Z.to_nat ml) (str_split (preprocess_text str_lower t2)) →
  tokenize str_lower (TextTokenizer_init ml vs) t1
  = tokenize str_lower (TextTokenizer_init ml vs) t2.
Proof.
  intros Hml Htake. rewrite !split_preprocess in Htake.
  rewrite !tokenize_eq. unfold slice_to. rewrite (proj2 (Z.leb_le 0 ml) Hml).
  by rewrite Htake.
Qed.

(** Every entry of the array is an index from 0 to 127, whatever the text
    and [max_length]. *)
Theorem tokenize_entries_range (ml vs : Z) (t : pystr) :
  ∃ row : list Z,
    tokenize str_lower (TextTokenizer_init ml vs) t = Ok [row]
    ∧ Forall (λ z, 0 ≤ z ≤ 127) row.
Proof.
  eexists. split; [apply tokenize_eq|].
  rewrite pad_sequence_eq. apply Forall_app. split.
  - apply Forall_fmap, Forall_forall. intros w _. apply lookup_word_range.
  - apply Forall_replicate. lia.
Qed.

(** With a negative [max_length] the slice [words[:max_length]] drops that
    many words from the end and nothing is padded: the row has
    max(0, n + max_length) entries for a text of n words. *)
Theorem tokenize_negative_max_length (ml vs : Z) (t : pystr) :
  ml < 0 →
  ∃ row : list Z,
    tokenize str_lower (TextTokenizer_init ml vs) t = Ok [row]
    ∧ row = lookup_word
            <$> take (Z.to_nat (Z.of_nat (length (str_split (preprocess_text str_lower t))) + ml))
                  (str_split (preprocess_text str_lower t))
    ∧ Z.of_nat (length row)
      = Z.max 0 (Z.of_nat (length (str_split (preprocess_text str_lower t))) + ml).
Proof.
  intros Hml. eexists. split; [apply tokenize_eq|].
  rewrite pad_sequence_eq, split_preprocess.
  replace (Z.to_nat ml) with 0%nat by lia. simpl. rewrite app_nil_r.
  unfold slice_to. destruct (Z.leb_spec 0 ml); [lia|].
  split; [reflexivity|]. rewrite length_fmap, length_take. lia.
Qed.

(** The index 1 marks the unknown words and only them: at the position of a
    word of the normalized text, the row holds 1 exactly when the vocabulary
    does not have the word. *)
Theorem tokenize_index_one_iff (ml vs : Z) (t : pystr) (i : nat) (w : pystr) :
  0 ≤ ml →
  Z.of_nat i < ml →
  str_split (preprocess_text str_lower t) !! i = Some w →
  ∃ row : list Z,
    tokenize str_lower (TextTokenizer_init ml vs) t = Ok [row]
    ∧ row !! i = Some (lookup_word w)
    ∧ (lookup_word w = 1 ↔ _build_basic_vocab !! w = None).
Proof.
  intros Hml Hi Hw. eexists. split; [apply tokenize_eq|].
  rewrite pad_sequence_eq. rewrite split_preprocess in Hw.
  unfold slice_to. rewrite (proj2 (Z.leb_le 0 ml) Hml).
  split.
  - rewrite lookup_app_l.
    + rewrite list_lookup_fmap, lookup_take_lt by lia. by rewrite Hw.
    + rewrite length_fmap, length_take. apply lookup_lt_Some in Hw. lia.
  - split; [|apply lookup_word_absent].
    unfold lookup_word, dict_get.
    destruct (_build_basic_vocab !! w) as [v|] eqn:Hv; [|done].
    intros ->. apply vocab_table in Hv as (Hunk & _ & _).
    specialize (Hunk eq_refl). subst w.
    pose proof (kept_words_az str_lower t) as Haz.
    rewrite Forall_forall in Haz.
    specialize (Haz _ (list_elem_of_lookup_2 _ _ _ Hw)).
    change UNK with (60%N :: py "UNK>") in Haz.
    apply Forall_cons in Haz as [Hc _]. discriminate.
Qed.

(** A tokenizer whose vocabulary has lost ['<UNK>'] raises [KeyError] as
    soon as there is one word to map. *)
Theorem tokenize_missing_unk (self : TextTokenizer) (t : pystr) :
  word_index self !! UNK = None →
  slice_to (str_split (preprocess_text str_lower t)) (max_length self) ≠ [] →
  tokenize str_lower self t = Raise (Exception (py "'<UNK>'")).
Proof.
  intros Hunk Hne. unfold tokenize.
  destruct (slice_to _ _) as [|w ws]; [done|].
  simpl. unfold dict_getitem. rewrite Hunk. reflexivity.
Qed.

Hypothesis str_lower_plain : ∀ s : pystr, Forall is_plain s → str_lower s = s.

(** Tokenizing the normalized text gives what tokenizing the text gives. *)
Theorem tokenize_preprocess_text (ml vs : Z) (t : pystr) :
  tokenize str_lower (TextTokenizer_init ml vs) (preprocess_text str_lower t)
  = tokenize str_lower (TextTokenizer_init ml vs) t.
Proof.
  rewrite !tokenize_eq. by rewrite kept_words_preprocess.
Qed.

End MoreTokenizerProperties.

Lemma tokenize_truncation_witness :
  tokenize ascii_lower (TextTokenizer_init 2 10000) (py "so happy today")
  = tokenize ascii_lower (TextTokenizer_init 2 10000) (py "So, HAPPY... and sad").
Proof.
  apply (tokenize_truncation ascii_lower 2 10000); [lia|].
  vm_compute. reflexivity.
Defined.

Lemma tokenize_negative_max_length_witness :
  tokenize ascii_lower (TextTokenizer_init (-1) 10000) (py "i am happy") = Ok [[3; 10]].
Proof.
  destruct (tokenize_negative_max_length ascii_lower (-1) 10000 (py "i am happy"))
    as (row & Hrow & Hshape & _); [lia|].
  rewrite Hrow, Hshape. vm_compute. reflexivity.
Defined.

Lemma tokenize_index_one_iff_witness :
  ∃ row : list Z,
    tokenize ascii_lower (TextTokenizer_init 80 10000) (py "happy xyzzy") = Ok [row]
    ∧ row !! 0%nat = Some 45 ∧ row !! 1%nat = Some 1.
Proof.
  destruct (tokenize_index_one_iff ascii_lower 80 10000 (py "happy xyzzy") 0 (py "happy"))
    as (row & Hrow & H0 & _); [lia|lia|vm_compute; reflexivity|].
  destruct (tokenize_index_one_iff ascii_lower 80 10000 (py "happy xyzzy") 1 (py "xyzzy"))
    as (row' & Hrow' & H1 & _); [lia|lia|vm_compute; reflexivity|].
  exists row. split; [exact Hrow|]. split.
  - rewrite H0. vm_compute. reflexivity.
  - rewrite Hrow in Hrow'. injection Hrow' as <-. rewrite H1.
    vm_compute. reflexivity.
Defined.

Lemma tokenize_missing_unk_witness :
  tokenize ascii_lower {| max_length := 80; vocab_size := 10000; word_index := {[ py "happy" := 2 ]} |}
    (py "happy")
  = Raise (Exception (py "'<UNK>'")).
Proof.
  apply tokenize_missing_unk.
  - vm_compute. reflexivity.
  - vm_compute. discriminate.
Defined.

Lemma tokenize_preprocess_text_witness :
  tokenize ascii_lower (TextTokenizer_init 80 10000)
    (preprocess_text ascii_lower (py "I'm  SO happy, 2day!"))
  = tokenize ascii_lower (TextTokenizer_init 80 10000) (py "I'm  SO happy, 2day!").
Proof. apply (tokenize_preprocess_text ascii_lower ascii_lower_plain). Defined.

(** ** More on the result formatter *)

Lemma argmax_loop_nan pre : ∀ mp max_ind i rest,
  Forall (λ x, is_nan x = false) pre →
  argmax_loop mp max_ind i (pre ++ S754_nan :: rest) = (i + length pre)%nat.
Proof.
  induction pre as [|x pre IH]; intros mp max_ind i rest Hpre; simpl.
  - destruct mp as [[]|[]| |[] ? ?]; simpl; lia.
  - apply Forall_cons in Hpre as [Hx Hpre]. rewrite Hx.
    destruct (negb (float_le x mp)); rewrite IH by done; lia.
Qed.

Lemma np_argmax_nan pre rest :
  Forall (λ x, is_nan x = false) pre →
  np_argmax (pre ++ S754_nan :: rest) = Ok (length pre).
Proof.
  destruct pre as [|mp pre]; intros Hpre; [reflexivity|].
  apply Forall_cons in Hpre as [Hmp Hpre]. simpl. rewrite Hmp.
  by rewrite argmax_loop_nan.
Qed.

Lemma format_result_success_inv predictions emotion_labels text input_sequence r :
  format_result predictions emotion_labels text input_sequence = Ok (Success r) →
  length predictions = length emotion_labels ∧ predictions ≠ [].
Proof.
  unfold format_result, format_predictions.
  destruct (Nat.eqb_spec (length predictions) (length emotion_labels)) as [Hlen|Hlen];
    simpl; [|discriminate].
  intros Hres. split; [done|]. intros ->. simpl in Hres. discriminate.
Qed.

Lemma format_result_success predictions emotion_labels text input_sequence r :
  format_result predictions emotion_labels text input_sequence = Ok (Success r) →
  ∃ i,
    np_argmax predictions = Ok i
    ∧ predictions !! i = Some (confidence r)
    ∧ emotion_labels !! i = Some (emotion r)
    ∧ scores r = insert_scores ∅ (zip emotion_labels predictions)
    ∧ model r = py "bilstm_onnx"
    ∧ length predictions = length emotion_labels.
Proof.
  intros Hres.
  destruct (format_result_success_inv _ _ _ _ _ Hres) as [Hlen Hne].
  destruct (format_predictions_success predictions emotion_labels text input_sequence Hlen Hne)
    as (i & best & label & Hi & Hbest & Hlabel & Hfmt).
  unfold format_result in Hres. rewrite Hfmt in Hres. simpl in Hres.
  injection Hres as <-. exists i. simpl. done.
Qed.

Lemma format_result_failure_cases predictions emotion_labels text input_sequence :
  emotion_labels ≠ [] →
  ∃ res,
    format_result predictions emotion_labels text input_sequence = Ok res
    ∧ (success res = false ↔ length predictions ≠ length emotion_labels).
Proof.
  intros Hne.
  destruct (decide (length predictions = length emotion_labels)) as [Hlen|Hlen].
  - assert (predictions ≠ []) as Hp.
    { intros ->. by destruct emotion_labels. }
    destruct (format_predictions_success predictions emotion_labels text input_sequence Hlen Hp)
      as (i & best & label & _ & _ & _ & Hfmt).
    eexists. unfold format_result. rewrite Hfmt. simpl. split; [reflexivity|]. done.
  - eexists. unfold format_result. rewrite format_predictions_mismatch by done. simpl.
    split; [reflexivity|]. done.
Qed.

(** When a score is NaN, NumPy's [argmax] stops at the first one: the
    emotion is the label at that index and the confidence is NaN. *)
Theorem format_result_nan (predictions : list spec_float) (emotion_labels : list pystr)
    (text : pystr) (input_sequence : list (list Z)) (k : nat) :
  length predictions = length emotion_labels →
  predictions !! k = Some S754_nan →
  (∀ j x, (j < k)%nat → predictions !! j = Some x → is_nan x = false) →
  ∃ r : Prediction,
    format_result predictions emotion_labels text input_sequence = Ok (Success r)
    ∧ emotion_labels !! k = Some (emotion r)
    ∧ confidence r = S754_nan.
Proof.
  intros Hlen Hk Hbefore.
  assert (predictions ≠ []) as Hne by (by intros ->).
  destruct (format_predictions_success predictions emotion_labels text input_sequence Hlen Hne)
    as (i & best & label & Hi & Hbest & Hlabel & Hfmt).
  assert (np_argmax predictions = Ok k) as Hargmax.
  { rewrite <- (take_drop_middle predictions k S754_nan Hk).
    rewrite np_argmax_nan.
    - rewrite length_take. apply lookup_lt_Some in Hk. f_equal. lia.
    - apply Forall_forall. intros x Hx.
      apply list_elem_of_lookup_1 in Hx as [j Hj].
      pose proof (lookup_lt_Some _ _ _ Hj) as Hjlt. rewrite length_take in Hjlt.
      rewrite lookup_take_lt in Hj by lia. apply (Hbefore j); [lia|done]. }
  assert (i = k) as -> by (unfold Ok in *; congruence).
  eexists. unfold format_result. rewrite Hfmt. simpl.
  split; [reflexivity|]. simpl. split; [done|]. congruence.
Qed.

(** In a success the emotion and the confidence are the label and the score
    at one same index, and [model] is ["bilstm_onnx"]; when the labels are
    pairwise distinct, the confidence is also the entry of the emotion in
    [scores]. *)
Theorem format_result_consistent (predictions : list spec_float)
    (emotion_labels : list pystr) (text : pystr) (input_sequence : list (list Z))
    (r : Prediction) :
  format_result predictions emotion_labels text input_sequence = Ok (Success r) →
  model r = py "bilstm_onnx"
  ∧ (∃ i : nat, emotion_labels !! i = Some (emotion r)
                ∧ predictions !! i = Some (confidence r))
  ∧ (NoDup emotion_labels → scores r !! emotion r = Some (confidence r)).
Proof.
  intros Hres.
  destruct (format_result_success _ _ _ _ _ Hres)
    as (i & _ & Hconf & Hlabel & Hscores & Hmodel & Hlen).
  split; [done|]. split; [by exists i|].
  intros Hnd. rewrite Hscores.
  apply (insert_scores_lookup _ _ i).
  - rewrite fst_zip by lia. done.
  - apply lookup_zip_with_Some. eauto.
Qed.

Lemma insert_scores_dom pairs : ∀ scores,
  dom (insert_scores scores pairs) = list_to_set pairs.*1 ∪ dom scores.
Proof.
  induction pairs as [|[l p] pairs IH]; intros scores.
  - simpl. set_solver.
  - unfold insert_scores. simpl. fold (insert_scores (<[l:=p]> scores) pairs).
    rewrite IH, dom_insert_L. set_solver.
Qed.

Lemma insert_scores_lookup_last pairs : ∀ scores i l p,
  pairs !! i = Some (l, p) →
  (∀ j p', (i < j)%nat → pairs !! j ≠ Some (l, p')) →
  insert_scores scores pairs !! l = Some p.
Proof.
  induction pairs as [|[l0 p0] pairs IH]; intros scores i l p Hi Hlast; [done|].
  unfold insert_scores. simpl. fold (insert_scores (<[l0:=p0]> scores) pairs).
  destruct i as [|i]; simpl in Hi.
  - injection Hi as -> ->. rewrite insert_scores_lookup_other.
    + by rewrite lookup_insert_eq.
    + intros Hin. apply list_elem_of_fmap in Hin as ([l' p'] & Heq & Hin).
      simpl in Heq. subst l'.
      apply list_elem_of_lookup_1 in Hin as [j Hj].
      by apply (Hlast (S j) p'); [lia|].
  - apply (IH _ i); [done|]. intros j p' Hj. apply (Hlast (S j) p'). lia.
Qed.

Lemma size_list_to_set_le (l : list pystr) :
  (size (list_to_set l : gset pystr) ≤ length l)%nat.
Proof.
  induction l as [|x l IH].
  { rewrite list_to_set_nil, size_empty. done. }
  rewrite list_to_set_cons, length_cons, size_union_alt, size_singleton.
  pose proof (subseteq_size (list_to_set l ∖ {[x]}) (list_to_set l : gset pystr)) as Hsub.
  specialize (Hsub ltac:(set_solver)). lia.
Qed.

Lemma size_list_to_set_NoDup (l : list pystr) :
  size (list_to_set l : gset pystr) = length l ↔ NoDup l.
Proof.
  split; [|apply size_list_to_set].
  induction l as [|x l IH]; intros Hsize; [constructor|].
  pose proof (size_list_to_set_le l) as Hle.
  destruct (decide (x ∈ l)) as [Hin|Hnotin].
  - exfalso. rewrite list_to_set_cons, length_cons in Hsize.
    replace ({[x]} ∪ list_to_set l : gset pystr) with (list_to_set l : gset pystr) in Hsize
      by set_solver.
    lia.
  - constructor; [done|]. apply IH. rewrite list_to_set_cons, length_cons in Hsize.
    rewrite size_union, size_singleton in Hsize by set_solver. lia.
Qed.

(** The keys of [scores] are the labels. A label that occurs several times
    has one entry, holding the score at its last position; so the dictionary
    has as many entries as labels exactly when the labels are pairwise
    distinct. *)
Theorem scores_keys_and_size (predictions : list spec_float)
    (emotion_labels : list pystr) (text : pystr) (input_sequence : list (list Z))
    (r : Prediction) :
  format_result predictions emotion_labels text input_sequence = Ok (Success r) →
  dom (scores r) = list_to_set emotion_labels
  ∧ (∀ (i : nat) (label : pystr),
       emotion_labels !! i = Some label →
       (∀ j : nat, (i < j)%nat → emotion_labels !! j ≠ Some label) →
       scores r !! label = predictions !! i)
  ∧ (size (scores r) = length emotion_labels ↔ NoDup emotion_labels).
Proof.
  intros Hres.
  destruct (format_result_success _ _ _ _ _ Hres)
    as (i0 & _ & _ & _ & Hscores & _ & Hlen).
  assert (dom (scores r) = list_to_set emotion_labels) as Hdom.
  { rewrite Hscores, insert_scores_dom, fst_zip by lia. set_solver. }
  split; [done|]. split.
  - intros i label Hi Hlast.
    destruct (lookup_lt_is_Some_2 predictions i) as [p Hp].
    { apply lookup_lt_Some in Hi. lia. }
    rewrite Hp, Hscores. apply (insert_scores_lookup_last _ _ i).
    + apply lookup_zip_with_Some. eauto.
    + intros j p' Hj Hzip. apply lookup_zip_with_Some in Hzip as (l' & p'' & Heq & Hl & _).
      injection Heq as <- <-. by apply (Hlast j).
  - rewrite <- size_list_to_set_NoDup, <- Hdom. by rewrite size_dom.
Qed.

Lemma format_result_nan_witness :
  ∃ r : Prediction,
    format_result [p020; S754_nan; p050] [py "sad"; py "happy"; py "angry"] (py "hi") [[1; 0]]
    = Ok (Success r)
    ∧ emotion r = py "happy" ∧ confidence r = S754_nan.
Proof.
  destruct (format_result_nan [p020; S754_nan; p050] [py "sad"; py "happy"; py "angry"]
              (py "hi") [[1; 0]] 1) as (r & Hr & Hlabel & Hconf).
  - reflexivity.
  - reflexivity.
  - intros [|j] x Hj Hx; [|lia]. injection Hx as <-. reflexivity.
  - exists r. split; [exact Hr|]. split; [|exact Hconf].
    simpl in Hlabel. congruence.
Defined.

Lemma format_result_consistent_witness :
  ∃ r : Prediction,
    format_result [p020; p050] [py "sad"; py "happy"] (py "hi") [[1; 0]] = Ok (Success r)
    ∧ model r = py "bilstm_onnx"
    ∧ scores r !! emotion r = Some (confidence r).
Proof.
  assert (∃ r, format_result [p020; p050] [py "sad"; py "happy"] (py "hi") [[1; 0]]
               = Ok (Success r)) as [r Hr]
    by (eexists; vm_compute; reflexivity).
  exists r. split; [exact Hr|].
  destruct (format_result_consistent _ _ _ _ r Hr) as (Hmodel & _ & Hscore).
  split; [exact Hmodel|]. apply Hscore.
  apply (bool_decide_unpack _). vm_compute. reflexivity.
Defined.

Lemma scores_keys_and_size_witness :
  ∃ r : Prediction,
    format_result [p020; p030; p050] [py "a"; py "b"; py "a"] (py "hi") [[1; 0]]
    = Ok (Success r)
    ∧ scores r !! py "a" = Some p050
    ∧ size (scores r) ≠ 3%nat.
Proof.
  assert (∃ r, format_result [p020; p030; p050] [py "a"; py "b"; py "a"] (py "hi") [[1; 0]]
               = Ok (Success r)) as [r Hr]
    by (eexists; vm_compute; reflexivity).
  exists r. split; [exact Hr|].
  destruct (scores_keys_and_size _ _ _ _ r Hr) as (_ & Hlast & Hsize).
  split.
  - rewrite (Hlast 2%nat (py "a")); [reflexivity|reflexivity|].
    intros [|[|[|j]]] Hj; try lia. discriminate.
  - intros Heq. apply Hsize in Heq.
    apply NoDup_cons in Heq as [Hnotin _]. apply Hnotin.
    right. left.
Defined.

(** ** More on predict_emotion and main *)

Lemma format_predictions_never_exits predictions emotion_labels text input_sequence :
  never_exits (format_predictions predictions emotion_labels text input_sequence).
Proof.
  intros code. unfold format_predictions.
  destruct (negb _); [discriminate|].
  destruct predictions as [|mp ip]; [discriminate|].
  destruct (np_argmax (mp :: ip)) as [[msg|c]|i] eqn:Hi; simpl.
  - discriminate.
  - simpl in Hi. destruct (is_nan mp); discriminate.
  - unfold list_getitem at 1.
    destruct ((mp :: ip) !! i) as [best|]; simpl; [|discriminate].
    assert (∀ items sc, never_exits (scores_loop (mp :: ip) items sc)) as Hloop.
    { induction items as [|[idx label] items IH]; intros sc c; simpl; [discriminate|].
      unfold list_getitem. destruct ((mp :: ip) !! idx); simpl; [apply IH|discriminate]. }
    destruct (scores_loop _ _ _) as [[msg|c]|sc] eqn:Hsc; simpl.
    + discriminate.
    + by apply Hloop in Hsc.
    + unfold list_getitem. destruct (emotion_labels !! i); simpl; discriminate.
Qed.

Section MoreScriptProperties.

Variable str_lower : pystr → pystr.

Lemma tokenize_never_exits self text : never_exits (tokenize str_lower self text).
Proof.
  intros code. unfold tokenize.
  assert (∀ words sequence, never_exits (tokenize_loop self words sequence)) as Hloop.
  { induction words as [|w words IH]; intros sequence c; simpl; [discriminate|].
    unfold dict_getitem. destruct (word_index self !! UNK); simpl; [apply IH|discriminate]. }
  destruct (tokenize_loop _ _ _) as [[msg|c]|sequence] eqn:Hseq; simpl.
  - discriminate.
  - by apply Hloop in Hseq.
  - unfold np_array_int32. destruct (forallb _ _); discriminate.
Qed.


(** [predict_emotion] never raises: with any tokenizer, any text and any
    labels it returns a result dictionary, as long as the session itself
    does not end the process. *)
Theorem predict_emotion_returns (session : InferenceSession) (text : pystr)
    (emotion_labels : list pystr) (tokenizer : TextTokenizer) :
  (∀ input_sequence, never_exits (session input_sequence)) →
  ∃ res : PredictionResult,
    predict_emotion str_lower session text emotion_labels tokenizer = Ok res.
Proof.
  intros Hsession. unfold predict_emotion.
  destruct (tokenize str_lower tokenizer text) as [[msg|c]|seq] eqn:Htok; simpl.
  - by eexists.
  - by apply tokenize_never_exits in Htok.
  - destruct (session seq) as [[msg|c]|predictions] eqn:Hrun; simpl.
    + by eexists.
    + by apply Hsession in Hrun.
    + destruct (format_predictions predictions emotion_labels text seq)
        as [[msg|c]|res] eqn:Hfmt; simpl.
      * by eexists.
      * by apply format_predictions_never_exits in Hfmt.
      * by eexists.
Qed.

Lemma predict_emotion_no_exception session text emotion_labels tokenizer msg :
  predict_emotion str_lower session text emotion_labels tokenizer ≠ Raise (Exception msg).
Proof.
  unfold predict_emotion, try_except.
  destruct (rbind _ _) as [[msg'|c']|res']; discriminate.
Qed.

#[local] Opaque predict_emotion str_strip str_split_on.

(** What a run with at least three arguments and the runtime installed
    does, case by case. *)
Lemma run_cases p a0 model_path text labels_arg rest :
  ort_installed p = true →
  argv p = a0 :: model_path :: text :: labels_arg :: rest →
  run str_lower p
  = if bool_decide (text = []) || (length (str_strip text) =? 0)%nat
    then ([Failure (py "Empty text provided")], 1)
    else match ort_InferenceSession p model_path with
         | inl (Exception msg) => ([Failure (py "Failed to load ONNX model: " ++ msg)], 1)
         | inl (SystemExit code) => ([], code)
         | inr session =>
             match predict_emotion str_lower session text
                     (str_split_on comma labels_arg) (TextTokenizer_init 80 10000) with
             | inr res => ([res], 0)
             | inl (Exception msg) => ([Failure msg], 1)
             | inl (SystemExit code) => ([], code)
             end
         end.
Proof.
  intros Hort Hargv. unfold run, script, main. rewrite Hort, Hargv.
  unfold io_try_except, io_bind, io_lift, io_ret, print_json, sys_exit, load_onnx_model.
  simpl.
  destruct (bool_decide (text = []) || (length (str_strip text) =? 0)%nat); [reflexivity|].
  simpl.
  destruct (ort_InferenceSession p model_path) as [[msg|c]|session]; simpl; try reflexivity.
  destruct (predict_emotion _ _ _ _ _) as [[msg|c]|res]; reflexivity.
Qed.

Lemma blank_check (text : pystr) :
  bool_decide (text = []) || (length (str_strip text) =? 0)%nat = true
  ↔ Forall (λ c, is_space c = true) text.
Proof.
  rewrite <- str_strip_empty_iff. rewrite orb_true_iff, bool_decide_eq_true, Nat.eqb_eq.
  split.
  - intros [->|Hlen]; [reflexivity|]. by destruct (str_strip text).
  - intros ->. by right.
Qed.

(** [main] answers "Empty text provided", with exit status 1, exactly for
    the texts made of whitespace only (the empty one among them). *)
Theorem run_rejects_blank_text_iff (p : Process) (a0 model_path text labels_arg : pystr)
    (rest : list pystr) :
  ort_installed p = true →
  argv p = a0 :: model_path :: text :: labels_arg :: rest →
  run str_lower p = ([Failure (py "Empty text provided")], 1)
  ↔ Forall (λ c, is_space c = true) text.
Proof.
  intros Hort Hargv. rewrite (run_cases p _ _ _ _ _ Hort Hargv).
  rewrite <- blank_check.
  destruct (bool_decide (text = []) || (length (str_strip text) =? 0)%nat); [by split|].
  split; [|done]. intros Hrun. exfalso.
  destruct (ort_InferenceSession p model_path) as [[msg|c]|session].
  - injection Hrun as Hmsg. vm_compute in Hmsg. discriminate.
  - discriminate.
  - destruct (predict_emotion _ _ _ _ _) as [[msg|c]|res] eqn:Hres.
    + by apply predict_emotion_no_exception in Hres.
    + discriminate.
    + discriminate.
Qed.


(** From the command line the label list is never empty, so the empty case
    of the formatter cannot arise: when the model loads and the session
    returns scores, the printed object is a failure exactly when the number
    of scores is not the number of commas of the label argument plus one. *)
Theorem run_failure_iff_label_mismatch (p : Process)
    (a0 model_path text labels_arg : pystr) (rest : list pystr)
    (session : InferenceSession) (input_sequence : list (list Z))
    (predictions : list spec_float) :
  ort_installed p = true →
  argv p = a0 :: model_path :: text :: labels_arg :: rest →
  ¬ Forall (λ c, is_space c = true) text →
  ort_InferenceSession p model_path = Ok session →
  tokenize str_lower (TextTokenizer_init 80 10000) text = Ok input_sequence →
  session input_sequence = Ok predictions →
  ∃ res : PredictionResult,
    run str_lower p = ([res], 0)
    ∧ (success res = false
       ↔ length predictions ≠ S (length (List.filter (λ c, (c =? comma)%N) labels_arg))).
Proof.
  intros Hort Hargv Hblank Hload Htok Hrun.
  rewrite (run_cases p _ _ _ _ _ Hort Hargv).
  rewrite <- blank_check in Hblank. apply not_true_is_false in Hblank. rewrite Hblank, Hload.
  unfold Ok at 1. cbv iota beta.
  destruct (predict_emotion_eq str_lower session text (str_split_on comma labels_arg) 80 10000)
    as (seq & Htok' & ->).
  rewrite Htok in Htok'. injection Htok' as <-. rewrite Hrun.
  unfold Ok at 1. cbv iota beta.
  pose proof (str_split_on_length comma labels_arg) as Hlen.
  destruct (format_result_failure_cases predictions (str_split_on comma labels_arg)
              text input_sequence) as (res & -> & Hiff).
  { intros Heq. rewrite Heq in Hlen. discriminate. }
  exists res. split; [reflexivity|]. by rewrite Hiff, Hlen.
Qed.

End MoreScriptProperties.

Lemma predict_emotion_returns_witness :
  ∃ res : PredictionResult,
    predict_emotion ascii_lower (raising_session (py "boom")) (py "I am happy")
      [py "sad"; py "happy"]
      {| max_length := 80; vocab_size := 10000; word_index := ∅ |}
    = Ok res.
Proof.
  apply predict_emotion_returns. intros seq code. discriminate.
Defined.

Lemma run_rejects_blank_text_iff_witness :
  run ascii_lower (sample_process "   " "sad,happy" (constant_session [p020; p050]))
  = ([Failure (py "Empty text provided")], 1).
Proof.
  apply (run_rejects_blank_text_iff ascii_lower _ (py "bilstm_onnx_inference.py")
           (py "emotion_bilstm_final.onnx") (py "   ") (py "sad,happy") []).
  - reflexivity.
  - reflexivity.
  - repeat constructor.
Defined.


Lemma run_failure_iff_label_mismatch_witness :
  ∃ res : PredictionResult,
    run ascii_lower (sample_process "I am happy" "sad,happy,angry"
                       (constant_session [p020; p050]))
    = ([res], 0)
    ∧ success res = false.
Proof.
  destruct (run_failure_iff_label_mismatch ascii_lower
              (sample_process "I am happy" "sad,happy,angry" (constant_session [p020; p050]))
              (py "bilstm_onnx_inference.py") (py "emotion_bilstm_final.onnx")
              (py "I am happy") (py "sad,happy,angry") []
              (constant_session [p020; p050])
              [[3; 10; 45] ++ replicate 77 0] [p020; p050])
    as (res & Hrun & Hiff).
  - reflexivity.
  - reflexivity.
  - intros Hblank. apply Forall_cons in Hblank as [Hc _]. discriminate.
  - reflexivity.
  - vm_compute. reflexivity.
  - reflexivity.
  - exists res. split; [exact Hrun|]. apply Hiff. vm_compute. discriminate.
Defined.


(** When the model cannot be loaded, the exception of the runtime comes
    out as one failure object whose message starts with "Failed to load ONNX
    model: ", and the exit status is 1. *)
Theorem run_reports_load_failure (str_lower : pystr → pystr) (p : Process)
    (a0 model_path text labels_arg : pystr) (rest : list pystr) (msg : pystr) :
  ort_installed p = true →
  argv p = a0 :: model_path :: text :: labels_arg :: rest →
  ¬ Forall (λ c, is_space c = true) text →
  ort_InferenceSession p model_path = Raise (Exception msg) →
  run str_lower p = ([Failure (py "Failed to load ONNX model: " ++ msg)], 1).
Proof.
  intros Hort Hargv Hblank Hload.
  rewrite (run_cases str_lower p _ _ _ _ _ Hort Hargv).
  rewrite <- blank_check in Hblank. apply not_true_is_false in Hblank.
  rewrite Hblank, Hload. reflexivity.
Qed.

Lemma run_reports_load_failure_witness :
  run ascii_lower
    {| ort_installed := true;
       argv := [py "bilstm_onnx_inference.py"; py "missing.onnx"; py "hello"; py "sad,happy"];
       ort_InferenceSession := λ _, Raise (Exception (py "file not found")) |}
  = ([Failure (py "Failed to load ONNX model: file not found")], 1).
Proof.
  apply (run_reports_load_failure ascii_lower _ (py "bilstm_onnx_inference.py")
           (py "missing.onnx") (py "hello") (py "sad,happy") [] (py "file not found")).
  - reflexivity.
  - reflexivity.
  - intros Hblank. apply Forall_cons in Hblank as [Hc _]. discriminate.
  - reflexivity.
Defined.

(** * The voice-service scripts *)

(** ** emotion_inference.py *)

(** The script never reports a success. Once TensorFlow is imported, every
    run prints one failure object and ends with status 0: the fixed
    explanation when the three arguments are there, the message of the
    [IndexError] when one is missing. *)
Theorem emotion_inference_always_fails (argv : list pystr) :
  ∃ msg : pystr,
    EmotionInference.run true argv = ([Failure msg], 0)
    ∧ ((4 ≤ length argv)%nat →
       ∃ model_path audio_path labels_arg,
         argv !! 1%nat = Some model_path ∧ argv !! 2%nat = Some audio_path
         ∧ argv !! 3%nat = Some labels_arg
         ∧ Failure msg = EmotionInference.predict_emotion model_path audio_path
                           (str_split_on comma labels_arg))
    ∧ ((length argv < 4)%nat → msg = py "list index out of range").
Proof.
  unfold EmotionInference.run, EmotionInference.main_block.
  unfold io_try_except, io_bind, io_lift, print_json, argv_getitem.
  destruct argv as [|a0 [|model_path [|audio_path [|labels_arg rest]]]]; simpl.
  - eexists. split; [reflexivity|]. split; [lia|done].
  - eexists. split; [reflexivity|]. split; [lia|done].
  - eexists. split; [reflexivity|]. split; [lia|done].
  - eexists. split; [reflexivity|]. split; [lia|done].
  - eexists. split; [reflexivity|]. split; [|lia].
    intros _. by exists model_path, audio_path, labels_arg.
Qed.

(** ** huggingface_emotion.py *)

Import HuggingfaceEmotion.

Lemma py_inj (s1 s2 : string) : py s1 = py s2 → s1 = s2.
Proof.
  unfold py. intros Heq.
  rewrite <- (string_of_list_ascii_of_string s1), <- (string_of_list_ascii_of_string s2).
  f_equal. revert Heq.
  generalize (list_ascii_of_string s1) (list_ascii_of_string s2).
  induction l as [|a l IH]; intros [|b l'] Heq; try done.
  rewrite !fmap_cons in Heq. injection Heq as Hab Hl.
  f_equal; [|by apply IH].
  rewrite <- (ascii_N_embedding a), <- (ascii_N_embedding b). by rewrite Hab.
Qed.

Lemma py_int_inj (i j : nat) : py_int i = py_int j → i = j.
Proof.
  unfold py_int. intros Heq. apply py_inj in Heq.
  apply DecimalNat.Unsigned.to_uint_inj.
  pose proof (NilEmpty.usu (Nat.to_uint i)) as Hi.
  pose proof (NilEmpty.usu (Nat.to_uint j)) as Hj.
  rewrite Heq in Hi. congruence.
Qed.

Lemma rbind_Ok {A B} (a : A) (k : A → result B) : rbind (Ok a) k = k a.
Proof. reflexivity. Qed.

Lemma hf_scores_loop_eq id2label probs : ∀ k n sc,
  (k + n ≤ length probs)%nat →
  HuggingfaceEmotion.scores_loop id2label probs (seq k n) sc
  = Ok (insert_scores sc (zip (emotion_name id2label <$> seq k n) (drop k probs))).
Proof.
  intros k n. revert k. induction n as [|n IH]; intros k sc Hlen; [reflexivity|].
  destruct (lookup_lt_is_Some_2 probs k) as [p Hp]; [lia|].
  simpl. unfold list_getitem. rewrite Hp. simpl.
  rewrite IH by lia. by rewrite (drop_S _ _ _ Hp).
Qed.

Lemma max_loop_value items : ∀ pre maxpos maxval,
  pre !! maxpos = Some maxval →
  (pre ++ items) !! (max_loop maxpos maxval (length pre) items).1
  = Some (max_loop maxpos maxval (length pre) items).2.
Proof.
  induction items as [|x items IH]; intros pre maxpos maxval Hmax; simpl.
  - rewrite app_nil_r. exact Hmax.
  - replace (pre ++ x :: items) with ((pre ++ [x]) ++ items) by by rewrite <- app_assoc.
    replace (S (length pre)) with (length (pre ++ [x]))
      by (rewrite length_app; simpl; lia).
    destruct (float_gt x maxval); apply IH.
    + rewrite lookup_app_r by lia. by rewrite Nat.sub_diag.
    + by apply lookup_app_l_Some.
Qed.

Lemma float_gt_not_le x y :
  is_nan x = false → is_nan y = false → float_gt x y = negb (float_le x y).
Proof.
  intros Hx Hy. unfold float_gt.
  destruct (float_le x y) eqn:Hle; simpl.
  - destruct (SFltb y x) eqn:Hlt; [|done]. exfalso.
    apply float_le_key in Hle; [|done..]. apply SFltb_key in Hlt; [|done..].
    key_order.
  - by apply float_not_le_lt.
Qed.

(** Without NaN, the built-in [max] keeps the item that NumPy's [argmax]
    points to. *)
Lemma max_loop_argmax items : ∀ maxpos maxval i,
  is_nan maxval = false → Forall (λ x, is_nan x = false) items →
  (max_loop maxpos maxval i items).1 = argmax_loop maxval maxpos i items.
Proof.
  induction items as [|x items IH]; intros maxpos maxval i Hm Hitems; [reflexivity|].
  apply Forall_cons in Hitems as [Hx Hitems]. simpl.
  rewrite float_gt_not_le, Hx by done.
  destruct (negb (float_le x maxval)); by apply IH.
Qed.

Lemma index_loop_found rt target l : ∀ i,
  (i ≤ target.1)%nat → (target.1 < i + length l)%nat →
  ∃ j, index_loop rt target i l = Ok j ∧ (i ≤ j ≤ target.1)%nat.
Proof.
  induction l as [|x l IH]; intros i Hle Hlt; simpl in *; [lia|].
  destruct (Nat.eqb_spec i target.1) as [Heq|Hne]; simpl.
  - exists i. split; [done|lia].
  - destruct (SFeqb x target.2).
    + exists i. split; [done|lia].
    + destruct (IH (S i)) as (j & Hj & Hrange); [lia..|].
      exists j. split; [done|lia].
Qed.

Lemma index_loop_first rt target l : ∀ i,
  (i ≤ target.1)%nat → (target.1 < i + length l)%nat →
  (∀ j x, (i + j < target.1)%nat → l !! j = Some x → SFeqb x target.2 = false) →
  index_loop rt target i l = Ok target.1.
Proof.
  induction l as [|x l IH]; intros i Hle Hlt Hbefore; simpl in *; [lia|].
  destruct (Nat.eqb_spec i target.1) as [Heq|Hne]; simpl; [by rewrite Heq|].
  rewrite (Hbefore 0%nat x) by (done || lia).
  apply IH; [lia..|]. intros j y Hj Hy. apply (Hbefore (S j)); [lia|done].
Qed.

Lemma max_loop_bound items : ∀ maxpos maxval i,
  (maxpos < i)%nat → ((max_loop maxpos maxval i items).1 < i + length items)%nat.
Proof.
  induction items as [|x items IH]; intros maxpos maxval i Hlt; simpl; [lia|].
  destruct (float_gt x maxval).
  - specialize (IH i x (S i)). lia.
  - specialize (IH maxpos maxval (S i)). lia.
Qed.

(** With an audio configuration, a model that loads and at least one score,
    the [try] block reaches its final [return]: nothing in between raises. *)
Lemma classify_body_success rt model_name audio_path config audio_model probs :
  AutoConfig_from_pretrained rt model_name = Ok config →
  model_type config ∈ audio_model_types →
  Wav2Vec2_from_pretrained rt model_name = Ok audio_model →
  audio_model audio_path = Ok probs →
  probs ≠ [] →
  ∃ max_prob i,
    py_max rt probs = Ok max_prob
    ∧ probs !! max_prob.1 = Some max_prob.2
    ∧ list_index rt probs max_prob = Ok i
    ∧ (i ≤ max_prob.1)%nat
    ∧ classify_body rt model_name audio_path
      = Ok (Success
              {| emotion := emotion_name (get_label_mapping model_name config) i;
                 confidence := max_prob.2;
                 scores := insert_scores ∅
                             (zip (emotion_name (get_label_mapping model_name config)
                                     <$> seq 0 (length probs)) probs);
                 model := model_name |}).
Proof.
  intros Hconfig Htype Hmodel Hprobs Hne.
  destruct probs as [|x probs]; [done|].
  set (l := x :: probs) in *.
  pose proof (max_loop_value probs [x] 0%nat x eq_refl) as Hval.
  pose proof (max_loop_bound probs 0%nat x 1%nat ltac:(lia)) as Hbound.
  change (length [x]) with 1%nat in Hval. change ([x] ++ probs) with l in Hval.
  set (max_prob := max_loop 0 x 1 probs) in *.
  destruct (index_loop_found rt max_prob l 0%nat) as (i & Hi & Hrange).
  { lia. } { unfold l. simpl. lia. }
  exists max_prob, i. split; [reflexivity|]. split; [done|].
  split; [done|]. split; [lia|].
  assert (py_max rt l = Ok max_prob) as Hmax by reflexivity.
  unfold classify_body. rewrite Hconfig, rbind_Ok.
  rewrite (bool_decide_eq_true_2 _ Htype). cbn [negb].
  rewrite Hmodel, rbind_Ok, Hprobs, rbind_Ok.
  rewrite hf_scores_loop_eq by lia. rewrite rbind_Ok, Hmax, rbind_Ok.
  unfold list_index. rewrite Hi, rbind_Ok. reflexivity.
Qed.

(** A model that is not a Wav2Vec2, WavLM or Hubert model is refused with a
    message that names the model and its type; the model is not loaded, so
    what loading it would do has no effect on the answer. *)
Theorem classify_audio_refuses_other_models (rt : Runtime) (model_name audio_path : pystr)
    (config : Config) :
  AutoConfig_from_pretrained rt model_name = Ok config →
  model_type config ∉ audio_model_types →
  classify_audio rt model_name audio_path
  = Ok (HuggingfaceEmotion.Failure
          (py "Model '" ++ model_name ++ py "' is a '" ++ model_type config
           ++ py "' model, not an audio model! Please use a Wav2Vec2/WavLM/Hubert model for audio emotion detection.")).
Proof.
  intros Hconfig Htype. unfold classify_audio, classify_body.
  rewrite Hconfig, rbind_Ok. by rewrite (bool_decide_eq_false_2 _ Htype).
Qed.

(** Without NaN among the scores, the dominant emotion is the name of the
    first class that holds the highest score, and the confidence is that
    score. *)
Theorem classify_audio_dominant (rt : Runtime) (model_name audio_path : pystr)
    (config : Config) (audio_model : AudioModel) (probs : list spec_float) :
  AutoConfig_from_pretrained rt model_name = Ok config →
  model_type config ∈ audio_model_types →
  Wav2Vec2_from_pretrained rt model_name = Ok audio_model →
  audio_model audio_path = Ok probs →
  probs ≠ [] →
  Forall (λ x, is_nan x = false) probs →
  ∃ (i : nat) (best : spec_float) (r : Classification),
    classify_audio rt model_name audio_path = Ok (HuggingfaceEmotion.Success r)
    ∧ probs !! i = Some best
    ∧ emotion r = emotion_name (get_label_mapping model_name config) i
    ∧ confidence r = best
    ∧ model r = model_name
    ∧ (∀ j x, probs !! j = Some x → float_le x best = true)
    ∧ (∀ j x, (j < i)%nat → probs !! j = Some x → SFltb x best = true).
Proof.
  intros Hconfig Htype Hmodel Hprobs Hne Hnan.
  destruct (classify_body_success rt model_name audio_path config audio_model probs
              Hconfig Htype Hmodel Hprobs Hne)
    as (max_prob & i' & Hmax & Hval & Hidx & _ & Hbody).
  destruct (np_argmax_first_max probs Hne Hnan) as (i & best & Hi & Hbest & Hle & Hlt).
  assert (max_prob.1 = i) as Hpos.
  { destruct probs as [|x probs]; [done|].
    apply Forall_cons in Hnan as [Hx Hnan].
    simpl in Hmax, Hi. rewrite Hx in Hi.
    unfold Ok in *. injection Hmax as <-. injection Hi as <-.
    by apply max_loop_argmax. }
  assert (max_prob.2 = best) as Hbestval by (rewrite Hpos in Hval; congruence).
  assert (i' = i) as ->.
  { unfold list_index in Hidx. rewrite index_loop_first in Hidx.
    - unfold Ok in Hidx. congruence.
    - lia.
    - rewrite Hpos. apply lookup_lt_Some in Hbest. lia.
    - intros j x Hj Hx. rewrite Hpos in Hj. rewrite Hbestval.
      specialize (Hlt j x ltac:(lia) Hx). unfold SFltb in Hlt. unfold SFeqb.
      by destruct (SFcompare x best) as [[]|]. }
  eexists i, best, _. unfold classify_audio. rewrite Hbody. simpl.
  split; [reflexivity|]. simpl.
  split; [done|]. split; [reflexivity|]. split; [done|]. split; [reflexivity|].
  split; [exact Hle|exact Hlt].
Qed.

Lemma hf_scores_entries (id2label : gmap (pystr + Z) pystr) (probs : list spec_float) :
  (∀ i j, emotion_name id2label i = emotion_name id2label j → i = j) →
  size (insert_scores ∅ (zip (emotion_name id2label <$> seq 0 (length probs)) probs))
  = length probs
  ∧ ∀ j p, probs !! j = Some p →
      insert_scores ∅ (zip (emotion_name id2label <$> seq 0 (length probs)) probs)
        !! emotion_name id2label j = Some p.
Proof.
  intros Hinj.
  assert (NoDup (emotion_name id2label <$> seq 0 (length probs))) as Hnd.
  { apply NoDup_fmap_2_strong; [|apply NoDup_seq]. intros i j _ _. apply Hinj. }
  assert ((zip (emotion_name id2label <$> seq 0 (length probs)) probs).*1
          = emotion_name id2label <$> seq 0 (length probs)) as Hfst.
  { apply fst_zip. rewrite length_fmap, length_seq. lia. }
  split.
  - rewrite insert_scores_size.
    + rewrite map_size_empty, length_zip, length_fmap, length_seq. lia.
    + by rewrite Hfst.
    + intros l _. apply lookup_empty.
  - intros j p Hj. apply (insert_scores_lookup _ _ j); [by rewrite Hfst|].
    apply lookup_zip_with_Some. exists (emotion_name id2label j), p.
    split; [done|]. split; [|done].
    rewrite list_lookup_fmap, lookup_seq_lt; [done|]. by eapply lookup_lt_Some.
Qed.

Lemma default_label_keys :
  map_Forall (λ k _, k ∈ (λ i, inl (py_int i) : pystr + Z) <$> seq 0 8) DEFAULT_LABELS.
Proof. apply (bool_decide_unpack _). vm_compute. reflexivity. Qed.

Lemma default_name_beyond (i : nat) :
  (8 ≤ i)%nat → emotion_name DEFAULT_LABELS i = py "emotion_" ++ py_int i.
Proof.
  intros Hi. unfold emotion_name.
  destruct (DEFAULT_LABELS !! inl (py_int i)) as [label|] eqn:Hl; [|done].
  apply default_label_keys in Hl.
  apply list_elem_of_fmap in Hl as (j & Heq & Hj).
  injection Heq as Heq. apply py_int_inj in Heq. subst j.
  apply elem_of_seq in Hj. lia.
Qed.

Lemma default_name_known (i : nat) :
  (i < 8)%nat →
  emotion_name DEFAULT_LABELS i
  = nth i (py <$> ["angry"; "calm"; "disgust"; "fear"; "happy"; "neutral"; "sad";
                   "surprise"]%string) [].
Proof.
  intros Hi.
  do 8 (destruct i as [|i]; [vm_compute; reflexivity|]). lia.
Qed.

Lemma default_name_inj (i j : nat) :
  emotion_name DEFAULT_LABELS i = emotion_name DEFAULT_LABELS j → i = j.
Proof.
  destruct (le_lt_dec 8 i) as [Hi|Hi], (le_lt_dec 8 j) as [Hj|Hj].
  - rewrite !default_name_beyond by done. intros Heq.
    apply app_inv_head in Heq. by apply py_int_inj.
  - rewrite (default_name_beyond i Hi), (default_name_known j Hj). intros Heq. exfalso.
    do 8 (destruct j as [|j]; [by inversion Heq|]). lia.
  - rewrite (default_name_known i Hi), (default_name_beyond j Hj). intros Heq. exfalso.
    do 8 (destruct i as [|i]; [by inversion Heq|]). lia.
  - rewrite (default_name_known i Hi), (default_name_known j Hj).
    do 8 (destruct i as [|i];
          [do 8 (destruct j as [|j]; [by (reflexivity || inversion 1)|]); lia|]).
    lia.
Qed.

(** With a configuration that brings no labels, every class has an entry of
    its own in [scores], whatever the number of classes: the eight default
    names first, then [emotion_8], [emotion_9] and so on. *)
Theorem classify_audio_default_labels (rt : Runtime) (model_name audio_path : pystr)
    (config : Config) (audio_model : AudioModel) (probs : list spec_float) :
  AutoConfig_from_pretrained rt model_name = Ok config →
  model_type config ∈ audio_model_types →
  id2label config = None →
  Wav2Vec2_from_pretrained rt model_name = Ok audio_model →
  audio_model audio_path = Ok probs →
  probs ≠ [] →
  ∃ r : Classification,
    classify_audio rt model_name audio_path = Ok (HuggingfaceEmotion.Success r)
    ∧ size (scores r) = length probs
    ∧ (∀ (i : nat) (p : spec_float), probs !! i = Some p →
         scores r !! emotion_name DEFAULT_LABELS i = Some p)
    ∧ (∀ i : nat, (8 ≤ i)%nat →
         emotion_name DEFAULT_LABELS i = py "emotion_" ++ py_int i).
Proof.
  intros Hconfig Htype Hnone Hmodel Hprobs Hne.
  destruct (classify_body_success rt model_name audio_path config audio_model probs
              Hconfig Htype Hmodel Hprobs Hne)
    as (max_prob & i & _ & _ & _ & _ & Hbody).
  assert (get_label_mapping model_name config = DEFAULT_LABELS) as Hmap
    by (unfold get_label_mapping; by rewrite Hnone).
  rewrite Hmap in Hbody.
  destruct (hf_scores_entries DEFAULT_LABELS probs default_name_inj) as [Hsize Hlookup].
  eexists. unfold classify_audio. rewrite Hbody.
  split; [reflexivity|]. split; [exact Hsize|]. split; [exact Hlookup|].
  apply default_name_beyond.
Qed.

(** When the labels of the configuration are filed under integers only, the
    lookup by [str(i)] finds none of them: every class is named
    [emotion_<i>], in [scores] and as the dominant emotion. *)
Theorem classify_audio_integer_keys (rt : Runtime) (model_name audio_path : pystr)
    (config : Config) (labels : gmap (pystr + Z) pystr) (audio_model : AudioModel)
    (probs : list spec_float) :
  AutoConfig_from_pretrained rt model_name = Ok config →
  model_type config ∈ audio_model_types →
  id2label config = Some labels →
  labels ≠ ∅ →
  (∀ s : pystr, labels !! inl s = None) →
  Wav2Vec2_from_pretrained rt model_name = Ok audio_model →
  audio_model audio_path = Ok probs →
  probs ≠ [] →
  ∃ (r : Classification) (i : nat),
    classify_audio rt model_name audio_path = Ok (HuggingfaceEmotion.Success r)
    ∧ (i < length probs)%nat
    ∧ emotion r = py "emotion_" ++ py_int i
    ∧ size (scores r) = length probs
    ∧ (∀ (j : nat) (p : spec_float), probs !! j = Some p →
         scores r !! (py "emotion_" ++ py_int j) = Some p).
Proof.
  intros Hconfig Htype Hsome Hnonempty Hkeys Hmodel Hprobs Hne.
  destruct (classify_body_success rt model_name audio_path config audio_model probs
              Hconfig Htype Hmodel Hprobs Hne)
    as (max_prob & i & _ & Hval & _ & Hle & Hbody).
  assert (get_label_mapping model_name config = labels) as Hmap.
  { unfold get_label_mapping. rewrite Hsome. by rewrite bool_decide_eq_false_2. }
  rewrite Hmap in Hbody.
  assert (∀ j, emotion_name labels j = py "emotion_" ++ py_int j) as Hname.
  { intros j. unfold emotion_name. by rewrite Hkeys. }
  destruct (hf_scores_entries labels probs) as [Hsize Hlookup].
  { intros a b. rewrite !Hname. intros Heq. apply app_inv_head in Heq.
    by apply py_int_inj. }
  assert (∀ j p, probs !! j = Some p →
            insert_scores ∅ (zip (emotion_name labels <$> seq 0 (length probs)) probs)
              !! (py "emotion_" ++ py_int j) = Some p) as Hlookup'.
  { intros j p Hj. rewrite <- Hname. by apply Hlookup. }
  eexists _, i. unfold classify_audio. rewrite Hbody.
  split; [reflexivity|].
  split; [apply lookup_lt_Some in Hval; lia|].
  split; [exact (Hname i)|]. split; [exact Hsize|exact Hlookup'].
Qed.

Lemma classify_body_never_exits rt model_name audio_path :
  (∀ name, never_exits (AutoConfig_from_pretrained rt name)) →
  (∀ name, never_exits (Wav2Vec2_from_pretrained rt name)) →
  (∀ name audio_model path,
     Wav2Vec2_from_pretrained rt name = Ok audio_model → never_exits (audio_model path)) →
  never_exits (classify_body rt model_name audio_path).
Proof.
  intros Hconfig Hmodel Hrun code. unfold classify_body.
  destruct (AutoConfig_from_pretrained rt model_name) as [[msg|c]|config] eqn:Hc;
    [discriminate|by apply Hconfig in Hc|]. rewrite rbind_Ok.
  destruct (negb _); [discriminate|].
  destruct (Wav2Vec2_from_pretrained rt model_name) as [[msg|c]|audio_model] eqn:Hm;
    [discriminate|by apply Hmodel in Hm|]. rewrite rbind_Ok.
  destruct (audio_model audio_path) as [[msg|c]|probs] eqn:Hp;
    [discriminate|by eapply Hrun in Hp|]. rewrite rbind_Ok.
  assert (∀ indices sc,
            never_exits (HuggingfaceEmotion.scores_loop
                           (get_label_mapping model_name config) probs indices sc))
    as Hloop.
  { induction indices as [|i indices IH]; intros sc c; simpl; [discriminate|].
    unfold list_getitem. destruct (probs !! i); simpl; [apply IH|discriminate]. }
  destruct (HuggingfaceEmotion.scores_loop _ _ _ _) as [[msg|c]|sc] eqn:Hs;
    [discriminate|by apply Hloop in Hs|]. rewrite rbind_Ok.
  destruct probs as [|x probs]; [discriminate|].
  change (py_max rt (x :: probs)) with (Ok (max_loop 0 x 1 probs)). rewrite rbind_Ok.
  assert (∀ target l i, never_exits (index_loop rt target i l)) as Hindex.
  { induction l as [|y l IH]; intros i c; simpl; [discriminate|].
    destruct (_ || _); [discriminate|apply IH]. }
  destruct (list_index rt _ _) as [[msg|c]|idx] eqn:Hi;
    [discriminate|by apply Hindex in Hi|discriminate].
Qed.

(** Once the imports have succeeded, a run prints exactly one JSON object
    and ends with status 0, success or failure alike, as long as the
    libraries themselves do not end the process; a missing argument is
    reported with the message of the [IndexError]. *)
Theorem huggingface_run_exit_status (rt : Runtime) (argv : list pystr) :
  (∀ name, never_exits (AutoConfig_from_pretrained rt name)) →
  (∀ name, never_exits (Wav2Vec2_from_pretrained rt name)) →
  (∀ name audio_model path,
     Wav2Vec2_from_pretrained rt name = Ok audio_model → never_exits (audio_model path)) →
  ∃ res : ClassifyResult,
    HuggingfaceEmotion.run None rt argv = ([res], 0)
    ∧ ((length argv < 3)%nat →
       res = HuggingfaceEmotion.Failure (py "list index out of range")).
Proof.
  intros Hconfig Hmodel Hrun.
  unfold HuggingfaceEmotion.run, HuggingfaceEmotion.main_block, argv_getitem.
  destruct argv as [|a0 [|model_name [|audio_path rest]]]; simpl.
  - eexists. split; [reflexivity|done].
  - eexists. split; [reflexivity|done].
  - eexists. split; [reflexivity|done].
  - unfold classify_audio, try_except.
    destruct (classify_body rt model_name audio_path) as [[msg|c]|res] eqn:Hbody.
    + eexists. split; [reflexivity|lia].
    + by apply classify_body_never_exits in Hbody.
    + eexists. split; [reflexivity|lia].
Qed.

Lemma classify_audio_refuses_other_models_witness :
  ∃ msg : pystr,
    classify_audio
      (sample_runtime {| model_type := py "roberta"; id2label := None |} [p020; p050])
      (py "some/text-model") (py "clip.wav")
    = Ok (HuggingfaceEmotion.Failure msg).
Proof.
  eexists.
  apply (classify_audio_refuses_other_models _ _ _
           {| model_type := py "roberta"; id2label := None |}).
  - reflexivity.
  - apply (bool_decide_unpack _). vm_compute. reflexivity.
Defined.

Lemma classify_audio_dominant_witness :
  ∃ r : Classification,
    classify_audio
      (sample_runtime {| model_type := py "wav2vec2"; id2label := None |}
         [p020; p050; p050])
      (py "superb/wav2vec2-base-superb-er") (py "clip.wav")
    = Ok (HuggingfaceEmotion.Success r)
    ∧ emotion r = py "calm"
    ∧ confidence r = p050.
Proof.
  destruct (classify_audio_dominant
              (sample_runtime {| model_type := py "wav2vec2"; id2label := None |}
                 [p020; p050; p050])
              (py "superb/wav2vec2-base-superb-er") (py "clip.wav")
              {| model_type := py "wav2vec2"; id2label := None |}
              (λ _, Ok [p020; p050; p050]) [p020; p050; p050])
    as (i & best & r & Hres & Hbest & Hname & Hconf & _ & Hle & Hlt).
  - reflexivity.
  - apply (bool_decide_unpack _). vm_compute. reflexivity.
  - reflexivity.
  - reflexivity.
  - discriminate.
  - repeat constructor.
  - exists r. split; [exact Hres|].
    destruct i as [|[|[|i]]]; simpl in Hbest; try discriminate.
    + injection Hbest as <-.
      specialize (Hle 1%nat p050 eq_refl). vm_compute in Hle. discriminate.
    + injection Hbest as <-. split; [rewrite Hname; vm_compute; reflexivity|exact Hconf].
    + injection Hbest as <-.
      specialize (Hlt 1%nat p050 ltac:(lia) eq_refl). vm_compute in Hlt. discriminate.
Defined.

Lemma classify_audio_default_labels_witness :
  ∃ r : Classification,
    classify_audio
      (sample_runtime {| model_type := py "hubert"; id2label := None |}
         (replicate 9 p020))
      (py "some/hubert-model") (py "clip.wav")
    = Ok (HuggingfaceEmotion.Success r)
    ∧ size (scores r) = 9%nat
    ∧ scores r !! py "surprise" = Some p020
    ∧ scores r !! py "emotion_8" = Some p020.
Proof.
  destruct (classify_audio_default_labels
              (sample_runtime {| model_type := py "hubert"; id2label := None |}
                 (replicate 9 p020))
              (py "some/hubert-model") (py "clip.wav")
              {| model_type := py "hubert"; id2label := None |}
              (λ _, Ok (replicate 9 p020)) (replicate 9 p020))
    as (r & Hres & Hsize & Hlookup & _).
  - reflexivity.
  - apply (bool_decide_unpack _). vm_compute. reflexivity.
  - reflexivity.
  - reflexivity.
  - reflexivity.
  - discriminate.
  - exists r. split; [exact Hres|]. split; [exact Hsize|]. split.
    + exact (Hlookup 7%nat p020 eq_refl).
    + exact (Hlookup 8%nat p020 eq_refl).
Defined.

Lemma classify_audio_integer_keys_witness :
  ∃ r : Classification,
    classify_audio
      (sample_runtime
         {| model_type := py "wav2vec2";
            id2label := Some {[ inr 0 := py "angry"; inr 1 := py "happy" ]} |}
         [p020; p050])
      (py "some/wav2vec2-model") (py "clip.wav")
    = Ok (HuggingfaceEmotion.Success r)
    ∧ emotion r = py "emotion_1"
    ∧ scores r !! py "emotion_0" = Some p020
    ∧ scores r !! py "happy" = None.
Proof.
  destruct (classify_audio_integer_keys
              (sample_runtime
                 {| model_type := py "wav2vec2";
                    id2label := Some {[ inr 0 := py "angry"; inr 1 := py "happy" ]} |}
                 [p020; p050])
              (py "some/wav2vec2-model") (py "clip.wav")
              {| model_type := py "wav2vec2";
                 id2label := Some {[ inr 0 := py "angry"; inr 1 := py "happy" ]} |}
              {[ inr 0 := py "angry"; inr 1 := py "happy" ]}
              (λ _, Ok [p020; p050]) [p020; p050])
    as (r & i & Hres & _ & _ & _ & Hlookup).
  - reflexivity.
  - apply (bool_decide_unpack _). vm_compute. reflexivity.
  - reflexivity.
  - apply (bool_decide_unpack _). vm_compute. reflexivity.
  - intros s. rewrite lookup_insert_ne by discriminate.
    apply lookup_singleton_ne. discriminate.
  - reflexivity.
  - reflexivity.
  - discriminate.
  - exists r. split; [exact Hres|].
    pose proof (Hlookup 0%nat p020 eq_refl) as H0.
    vm_compute in Hres. injection Hres as <-.
    split; [vm_compute; reflexivity|]. split; [exact H0|]. vm_compute. reflexivity.
Defined.

Lemma huggingface_run_exit_status_witness :
  HuggingfaceEmotion.run None
    (sample_runtime {| model_type := py "wav2vec2"; id2label := None |} [p020; p050])
    [py "huggingface_emotion.py"; py "some/wav2vec2-model"]
  = ([HuggingfaceEmotion.Failure (py "list index out of range")], 0).
Proof.
  destruct (huggingface_run_exit_status
              (sample_runtime {| model_type := py "wav2vec2"; id2label := None |}
                 [p020; p050])
              [py "huggingface_emotion.py"; py "some/wav2vec2-model"])
    as (res & Hrun & Hmsg).
  - intros name code. discriminate.
  - intros name code. discriminate.
  - intros name audio_model path Hload code. simpl in Hload. injection Hload as <-.
    discriminate.
  - rewrite Hrun, Hmsg by (simpl; lia). reflexivity.
Defined.
